(** * The diff parser of the pull-request review service

    A shallow embedding of [src/services/diffParser.js] (class [DiffParser])
    and the properties of it that the specification states.

    Layout: JavaScript strings and the string methods the parser calls;
    regular expressions (the patterns of the source as syntax trees, matched
    by derivatives, with the usual inductive semantics next to it); the
    numbers the line counter runs over; the parser's methods in source order;
    then the lemmas and the theorems. *)

From Stdlib Require Import NArith Ascii String Lia Sorted.
From stdpp Require Import base numbers list option strings gmap.

(** ** JavaScript strings *)

(** A JavaScript string is a sequence of UTF-16 code units. *)
Definition str := list N.

(** A string literal of the source, written in ASCII. *)
Fixpoint u (s : string) : str :=
  match s with
  | EmptyString => []
  | String a s' => N_of_ascii a :: u s'
  end.

(** The line feed, written "\n" in the source. *)
Definition LF : N := 10.

(** [pieces.join(sep)] for a separator of one code unit. *)
Fixpoint join (sep : N) (pieces : list str) : str :=
  match pieces with
  | [] => []
  | [p] => p
  | p :: rest => p ++ sep :: join sep rest
  end.

(** The lines of a patch put together: [unlines [a; b]] is a + "\n" + b. *)
Definition unlines (ls : list str) : str := join LF ls.

(** WhiteSpace and LineTerminator code units of ECMAScript: what
    [String.prototype.trim] strips and what the class [\s] matches. *)
Definition is_space (c : N) : bool :=
  ((9 <=? c) && (c <=? 13) || (c =? 32) || (c =? 160) || (c =? 5760)
   || (8192 <=? c) && (c <=? 8202) || (c =? 8232) || (c =? 8233)
   || (c =? 8239) || (c =? 8287) || (c =? 12288) || (c =? 65279))%N.

(** [\d] *)
Definition is_digit (c : N) : bool := ((48 <=? c) && (c <=? 57))%N.

(** [\w] : ASCII letters, digits and the underscore. *)
Definition is_word (c : N) : bool :=
  ((65 <=? c) && (c <=? 90) || (97 <=? c) && (c <=? 122)
   || is_digit c || (c =? 95))%N.

(** [s.startsWith(p)] *)
Fixpoint startsWith (s p : str) : bool :=
  match p, s with
  | [], _ => true
  | a :: p', b :: s' => (a =? b)%N && startsWith s' p'
  | _ :: _, [] => false
  end.

(** [s.slice(start)] for a start that is not negative. *)
Definition slice (s : str) (start : nat) : str := drop start s.

(** [s.split(sep)] for a separator of one code unit: the result is never
    empty, the empty string splits into one empty piece. *)
Fixpoint split (s : str) (sep : N) : list str :=
  match s with
  | [] => [[]]
  | c :: s' =>
      if (c =? sep)%N then [] :: split s' sep
      else match split s' sep with
           | cur :: rest => (c :: cur) :: rest
           | [] => [[c]]
           end
  end.

Fixpoint trimStart (s : str) : str :=
  match s with
  | [] => []
  | c :: s' => if is_space c then trimStart s' else s
  end.

Definition trimEnd (s : str) : str := rev (trimStart (rev s)).

(** [s.trim()] *)
Definition trim (s : str) : str := trimEnd (trimStart s).

(** [s.replace(pat, rep)] with a string pattern: the first occurrence of
    [pat] only. (The replacement of the source is the empty string, which
    holds no [$] pattern.) *)
Fixpoint replace (s pat rep : str) : str :=
  if startsWith s pat then rep ++ drop (length pat) s
  else match s with
       | [] => []
       | c :: s' => c :: replace s' pat rep
       end.

(** ** Values *)

(** The values that flow through the parser besides numbers, arrays and
    records: a property that an object does not have reads as [undefined],
    [detectLanguage] answers a string or [null]. *)
Inductive value :=
| VUndefined
| VNull
| VBool (b : bool)
| VStr (s : str).

(** ToString, as applied by [RegExp.prototype.test], by a template literal
    and by a property access [table[key]]. *)
Definition ToString (v : value) : str :=
  match v with
  | VUndefined => u "undefined"
  | VNull => u "null"
  | VBool true => u "true"
  | VBool false => u "false"
  | VStr s => s
  end.

(** ** Regular expressions *)

Module Re.

(** An item of a character class. *)
Inductive item :=
| Lit (c : N)
| Space   (* \s *)
| Word    (* \w *)
| Digit.  (* \d *)

Definition item_mem (i : item) (c : N) : bool :=
  match i with
  | Lit d => (c =? d)%N
  | Space => is_space c
  | Word => is_word c
  | Digit => is_digit c
  end.

(** [class_mem neg items c]: does [c] belong to [[items]], or to [[^items]]
    when [neg] is set. *)
Definition class_mem (neg : bool) (items : list item) (c : N) : bool :=
  xorb neg (existsb (fun i => item_mem i c) items).

(** The body of a pattern. None of the patterns of the source has a back
    reference or a look-around, no flag is set, and [^] and [$] stand at the
    two ends only (see [regex] below). *)
Inductive re :=
| Void
| Eps
| Class (neg : bool) (items : list item)
| Cat (r1 r2 : re)
| Alt (r1 r2 : re)
| Star (r : re).

Inductive Matches : re -> str -> Prop :=
| MEps : Matches Eps []
| MClass neg items c :
    class_mem neg items c = true -> Matches (Class neg items) [c]
| MCat r1 r2 s1 s2 :
    Matches r1 s1 -> Matches r2 s2 -> Matches (Cat r1 r2) (s1 ++ s2)
| MAltL r1 r2 s : Matches r1 s -> Matches (Alt r1 r2) s
| MAltR r1 r2 s : Matches r2 s -> Matches (Alt r1 r2) s
| MStarNil r : Matches (Star r) []
| MStarApp r s1 s2 :
    Matches r s1 -> Matches (Star r) s2 -> Matches (Star r) (s1 ++ s2).

Fixpoint nullable (r : re) : bool :=
  match r with
  | Void => false
  | Eps => true
  | Class _ _ => false
  | Cat r1 r2 => nullable r1 && nullable r2
  | Alt r1 r2 => nullable r1 || nullable r2
  | Star _ => true
  end.

Definition cat' (a b : re) : re :=
  match a with
  | Void => Void
  | Eps => b
  | _ => Cat a b
  end.

Definition alt' (a b : re) : re :=
  match a, b with
  | Void, _ => b
  | _, Void => a
  | _, _ => Alt a b
  end.

(** The derivative of [r] by the code unit [c]. *)
Fixpoint der (c : N) (r : re) : re :=
  match r with
  | Void => Void
  | Eps => Void
  | Class neg items => if class_mem neg items c then Eps else Void
  | Cat r1 r2 =>
      alt' (cat' (der c r1) r2) (if nullable r1 then der c r2 else Void)
  | Alt r1 r2 => alt' (der c r1) (der c r2)
  | Star r1 => cat' (der c r1) (Star r1)
  end.

(** [accepts r s]: the whole of [s] is a word of [r]. *)
Fixpoint accepts (r : re) (s : str) : bool :=
  match s with
  | [] => nullable r
  | c :: s' => accepts (der c r) s'
  end.

(** Pattern syntax. *)
Definition chr (c : N) : re := Class false [Lit c].
Definition ws : re := Class false [Space].       (* \s *)
Definition wd : re := Class false [Word].        (* \w *)
Definition dg : re := Class false [Digit].       (* \d *)
(** [.] : any code unit but a line terminator. *)
Definition dot : re := Class true [Lit 10; Lit 13; Lit 8232; Lit 8233].
(** Any code unit at all. *)
Definition any : re := Class true [].
Definition plus (r : re) : re := Cat r (Star r).  (* r+ *)
Definition opt (r : re) : re := Alt r Eps.        (* r? *)

Fixpoint seq (rs : list re) : re :=
  match rs with
  | [] => Eps
  | [r] => r
  | r :: rs' => Cat r (seq rs')
  end.

Fixpoint alts (rs : list re) : re :=
  match rs with
  | [] => Void
  | [r] => r
  | r :: rs' => Alt r (alts rs')
  end.

(** A run of literal code units. *)
Definition lit (s : string) : re := seq (map chr (u s)).

(** A pattern literal [/^body$/], the two anchors optional. *)
Record regex := { bol : bool; body : re; eol : bool }.

(** [^body] *)
Definition anchored (r : re) : regex := {| bol := true; body := r; eol := false |}.
(** [body] *)
Definition anywhere (r : re) : regex := {| bol := false; body := r; eol := false |}.
(** [body$] *)
Definition at_end (r : re) : regex := {| bol := false; body := r; eol := true |}.

(** [rx.test(s)], and the truth of [s.match(rx)], for a pattern without the
    [g] flag: is there a match of the body somewhere in [s], at the start
    under [^], up to the end under [$]. Such a pattern keeps no state
    between calls. *)
Definition test (rx : regex) (s : str) : bool :=
  accepts (Cat (if bol rx then Eps else Star any)
               (Cat (body rx) (if eol rx then Eps else Star any))) s.

End Re.

Import Re.

(** ** Numbers *)

(** The line counter is a JavaScript number, a binary64 float. It starts at
    0, is set from a run of decimal digits and goes up by one, so all it can
    hold is a whole number that is not negative, or [Infinity]. *)
Inductive num :=
| Fin (n : N)
| Infinity.

(** A whole number from 2^53 on, rounded to 53 significant bits, ties to
    the even mantissa: [e] is the exponent of the last mantissa bit, [q] the
    mantissa and [r] what is cut off. *)
Definition round_to_53_bits (n : N) : N :=
  let e := (N.log2 n - 52)%N in
  let q := (n / 2 ^ e)%N in
  let r := (n mod 2 ^ e)%N in
  let h := (2 ^ (e - 1))%N in
  let q' := if (h <? r)%N || ((r =? h)%N && N.odd q) then (q + 1)%N else q in
  (q' * 2 ^ e)%N.

(** The double nearest to the whole number [n]. Below 2^53 every whole
    number is a double; what rounds to 2^1024 or more is [Infinity]. *)
Definition round53 (n : N) : num :=
  if (n <? 2 ^ 53)%N then Fin n
  else
    let v := round_to_53_bits n in
    if (v <? 2 ^ 1024)%N then Fin v else Infinity.

(** [x++] leaves [x + 1] in the variable. *)
Definition incr (x : num) : num :=
  match x with
  | Fin n => round53 (n + 1)
  | Infinity => Infinity
  end.

Fixpoint digits_value (acc : N) (ds : str) : N :=
  match ds with
  | [] => acc
  | d :: ds' => digits_value (10 * acc + (d - 48))%N ds'
  end.

(** [parseInt(ds, 10)] on a run of decimal digits, which is all the parser
    passes to it (the group [(\d+)] of the hunk header): the value of the
    digits, rounded once to the nearest double. *)
Definition parseInt (ds : str) : num := round53 (digits_value 0 ds).

Definition num_le (x y : num) : Prop :=
  match x, y with
  | Fin a, Fin b => (a <= b)%N
  | _, Infinity => True
  | Infinity, Fin _ => False
  end.

(** The numbers that are doubles. *)
Definition representable (x : num) : Prop :=
  match x with
  | Fin n => round53 n = Fin n
  | Infinity => True
  end.

(** ** The hunk header *)

(** [/^@@ -\d+(?:,\d+)? \+(\d+)(?:,\d+)? @@/] *)
Definition hunk_header : regex :=
  anchored (seq [lit "@@ -"; plus dg; opt (Cat (lit ",") (plus dg));
                 lit " +"; plus dg; opt (Cat (lit ",") (plus dg));
                 lit " @@"]).

(** The longest run of digits at the head of [s], and what follows it. *)
Fixpoint span_digits (s : str) : str * str :=
  match s with
  | c :: s' =>
      if is_digit c then let '(d, rest) := span_digits s' in (c :: d, rest)
      else ([], s)
  | [] => ([], [])
  end.

(** [\d+] *)
Definition digits1 (s : str) : option (str * str) :=
  match span_digits s with
  | ([], _) => None
  | (d, rest) => Some (d, rest)
  end.

(** A literal piece of the pattern. *)
Definition strip (p : string) (s : str) : option str :=
  if startsWith s (u p) then Some (drop (length (u p)) s) else None.

(** [(?:,\d+)?] : what is left after the optional count. *)
Definition skip_count (s : str) : str :=
  match strip "," s ≫= digits1 with
  | Some (_, rest) => rest
  | None => s
  end.

(** [line.match(hunk_header)]: [None] is the source's [null], [Some g] a
    match whose group 1 is [g]. Every piece of the pattern is followed by a
    code unit that the piece itself cannot take, so the match is found
    without backtracking ([hunkMatch_test] below compares it with [test]). *)
Definition hunkMatch (line : str) : option str :=
  s1 ← strip "@@ -" line;
  '(_, s2) ← digits1 s1;
  s3 ← strip " +" (skip_count s2);
  '(g, s4) ← digits1 s3;
  _ ← strip " @@" (skip_count s4);
  Some g.

(** ** Line objects *)

(** The objects of the line arrays. [getAddedLines] and [getDeletedLines]
    build [{ lineNumber, content }]; the matchers read [lineObj.context]
    (the name their JSDoc gives the text field, and the one the trackers of
    the earlier draft used). A property that the object does not have reads
    as [VUndefined]. *)
Module Line.
Record t := mk { lineNumber : num; content : value; context : value }.
End Line.

(** ** The line trackers *)

Fixpoint getAddedLines_loop (lines : list str) (newLineNumber : num)
    (addedLines : list Line.t) : list Line.t :=
  match lines with
  | [] => addedLines
  | line :: rest =>
      match hunkMatch line with
      | Some g =>
          (* Hunk header *)
          getAddedLines_loop rest (parseInt g) addedLines
      | None =>
          if startsWith line (u "+") && negb (startsWith line (u "+++")) then
            (* Added line *)
            getAddedLines_loop rest (incr newLineNumber)
              (addedLines ++ [Line.mk newLineNumber (VStr (slice line 1)) VUndefined])
          else if startsWith line (u " ") then
            (* Context line *)
            getAddedLines_loop rest (incr newLineNumber) addedLines
          else getAddedLines_loop rest newLineNumber addedLines
      end
  end.

Definition getAddedLines (patch : str) : list Line.t :=
  getAddedLines_loop (split patch LF) (Fin 0) [].

Fixpoint getDeletedLines_loop (lines : list str) (newLineNumber : num)
    (addedLines : list Line.t) : list Line.t :=
  match lines with
  | [] => addedLines
  | line :: rest =>
      match hunkMatch line with
      | Some g =>
          (* Hunk header *)
          getDeletedLines_loop rest (parseInt g) addedLines
      | None =>
          if startsWith line (u "-") && negb (startsWith line (u "---")) then
            getDeletedLines_loop rest (incr newLineNumber)
              (addedLines ++ [Line.mk newLineNumber (VStr (slice line 1)) VUndefined])
          else if startsWith line (u " ") then
            (* Context line *)
            getDeletedLines_loop rest (incr newLineNumber) addedLines
          else getDeletedLines_loop rest newLineNumber addedLines
      end
  end.

Definition getDeletedLines (patch : str) : list Line.t :=
  getDeletedLines_loop (split patch LF) (Fin 0) [].

(** ** The language tag *)

(** [array.pop()] : the last element, [undefined] on an empty array. *)
Definition pop (a : list str) : value :=
  match last a with
  | Some s => VStr s
  | None => VUndefined
  end.

Fixpoint detectLanguage_loop (lines : list str) : value :=
  match lines with
  | [] => VNull
  | line :: rest =>
      let trimmed := trim line in
      if startsWith trimmed (u "+++") then
        pop (split (trim (replace (replace trimmed (u "+++") []) (u "b/") [])) 46)
      else detectLanguage_loop rest
  end.

Definition detectLanguage (patch : str) : value :=
  detectLanguage_loop (split patch LF).

(** ** Test files *)

Definition testPatterns : list regex :=
  [ anywhere (lit ".test.");                          (* /\.test\./ *)
    anywhere (lit ".spec.");                          (* /\.spec\./ *)
    anywhere (lit "__tests__/");                      (* /__tests__\// *)
    anywhere (lit "_test.");                          (* /_test\./ *)
    at_end (lit ".test");                             (* /\.test$/ *)
    at_end (lit ".spec");                             (* /\.spec$/ *)
    at_end (seq [lit "test_"; Star dot; lit ".py"]);  (* /test_.*\.py$/ *)
    at_end (seq [Star dot; lit "_test.py"]) ].        (* /.*_test\.py$/ *)

(** [testPatterns.some((pattern) => pattern.test(filename))] *)
Definition isTestFile (filename : value) : bool :=
  existsb (fun pattern => test pattern (ToString filename)) testPatterns.

(** ** Effects: the logger and exceptions *)

Inductive level := info | warn.

(** What a call can throw. *)
Inductive exn := TypeError | ReferenceError.

Inductive outcome (A : Type) :=
| Returned (a : A)
| Thrown (e : exn).
Arguments Returned {A} a.
Arguments Thrown {A} e.

(** A computation of the parser: it appends to the log of the one logger of
    the process (module [utils/logger]) and returns or throws. The logger is
    the only thing outside a call that the parser touches. *)
Definition M (A : Type) : Type :=
  list (level * str) -> list (level * str) * outcome A.

Definition ret {A : Type} (a : A) : M A := fun log => (log, Returned a).

Definition bind {A B : Type} (m : M A) (f : A -> M B) : M B := fun log =>
  match m log with
  | (log', Returned a) => f a log'
  | (log', Thrown e) => (log', Thrown e)
  end.

Notation "'let!' x ':=' c 'in' k" := (bind c (fun x => k))
  (at level 10, x name, c at level 200, k at level 200).

Definition throw {A : Type} (e : exn) : M A := fun log => (log, Thrown e).

Definition logger_info (message : str) : M unit :=
  fun log => (log ++ [(info, message)], Returned ()).

Definition logger_warn (message : str) : M unit :=
  fun log => (log ++ [(warn, message)], Returned ()).

(** [array.forEach(callback)], the callback folding the arrays it pushes to. *)
Fixpoint forEach {A S : Type} (callback : S -> A -> M S) (array : list A)
    (s : S) : M S :=
  match array with
  | [] => ret s
  | x :: rest => let! s' := callback s x in forEach callback rest s'
  end.

(** [v.match(rx)] as a condition: a match is truthy, [null] falsy. Only a
    string has the method; on [undefined] and [null] the property access
    throws, on a boolean the call does. *)
Definition match_ (v : value) (rx : regex) : M bool :=
  match v with
  | VStr s => ret (test rx s)
  | _ => throw TypeError
  end.

(** [!v.match(rx)] *)
Definition not_match (v : value) (rx : regex) : M bool :=
  let! m := match_ v rx in ret (negb m).

(** ** New functions *)

Module Results.
Record t := mk {
  hasNewFunctions : bool;
  newFunctions : list str;
  lineNumbers : list num;
  language : value }.
End Results.

(** [\s*], [\s+] and [\w+]. *)
Definition ws0 : re := Star ws.
Definition ws1 : re := plus ws.
Definition word1 : re := plus wd.

(** The pattern sets, each in the order of its keys. *)
Definition js_patterns : list (string * regex) :=
  [ (* "/^\s*(export\s+)?(async\s+)?function\s+\w+\s*\(/" *)
    ("function",
     anchored (seq [ws0; opt (Cat (lit "export") ws1); opt (Cat (lit "async") ws1);
                    lit "function"; ws1; word1; ws0; lit "("]));
    (* spaced out: "/^ \s* (export\s+)? (const|let|var) \s+ \w+ \s* = \s* (async \s* )? \( [^)]* \) \s* =>/" *)
    ("arrow",
     anchored (seq [ws0; opt (Cat (lit "export") ws1);
                    alts [lit "const"; lit "let"; lit "var"]; ws1; word1; ws0;
                    lit "="; ws0; opt (Cat (lit "async") ws0); lit "(";
                    Star (Class true [Lit 41]); lit ")"; ws0; lit "=>"]));
    (* "/^\s*(export\s+)?(const|let|var)\s+\w+\s*=\s*(async\s+)?function\s*\(/" *)
    ("expression",
     anchored (seq [ws0; opt (Cat (lit "export") ws1);
                    alts [lit "const"; lit "let"; lit "var"]; ws1; word1; ws0;
                    lit "="; ws0; opt (Cat (lit "async") ws1); lit "function";
                    ws0; lit "("]));
    (* "/^\s*(async\s+)?(\w+)\s*\([^)]*\)\s*{/" *)
    ("method",
     anchored (seq [ws0; opt (Cat (lit "async") ws1); word1; ws0; lit "(";
                    Star (Class true [Lit 41]); lit ")"; ws0; lit "{"])) ].

Definition py_patterns : list (string * regex) :=
  [ (* "/^\s*(async\s+)?def\s+\w+\s*\(/" *)
    ("function",
     anchored (seq [ws0; opt (Cat (lit "async") ws1); lit "def"; ws1; word1;
                    ws0; lit "("])) ].

Definition java_patterns : list (string * regex) :=
  [ (* "/^\s*(public|private|protected)?\s*(static)?\s*(final)?\s*[\w<>[\],\s]+\s+\w+\s*\(/" *)
    ("function",
     anchored (seq [ws0; opt (alts [lit "public"; lit "private"; lit "protected"]);
                    ws0; opt (lit "static"); ws0; opt (lit "final"); ws0;
                    plus (Class false [Word; Lit 60; Lit 62; Lit 91; Lit 93;
                                       Lit 44; Space]);
                    ws1; word1; ws0; lit "("])) ].

Definition go_patterns : list (string * regex) :=
  [ (* spaced out: "/^ \s* func \s+ ( \( \w+ \s+ \*? \w+ \) \s* )? \w+ \s* \(/" *)
    ("function",
     anchored (seq [ws0; lit "func"; ws1;
                    opt (seq [lit "("; word1; ws1; opt (lit "*"); word1;
                              lit ")"; ws0]);
                    word1; ws0; lit "("])) ].

(** The own properties of the object [patterns]. *)
Definition patterns : gmap str (list (string * regex)) :=
  list_to_map [ (u "js", js_patterns); (u "py", py_patterns);
                (u "java", java_patterns); (u "go", go_patterns) ].

(** The properties that [patterns], an object literal, inherits from
    [Object.prototype]. *)
Definition Object_prototype : list str :=
  map u [ "constructor"; "__defineGetter__"; "__defineSetter__";
          "hasOwnProperty"; "__lookupGetter__"; "__lookupSetter__";
          "isPrototypeOf"; "propertyIsEnumerable"; "toString"; "valueOf";
          "__proto__"; "toLocaleString" ].

(** [patterns[currentLanguage]] as the guard [!langPatterns] and the loop
    [for (const patternType in langPatterns)] see it: [None] stands for
    [undefined]; an inherited member is truthy and has no enumerable
    property, so the loop over it has nothing to visit. *)
Definition patterns_get (currentLanguage : value) : option (list (string * regex)) :=
  match patterns !! ToString currentLanguage with
  | Some langPatterns => Some langPatterns
  | None =>
      if bool_decide (ToString currentLanguage ∈ Object_prototype)
      then Some [] else None
  end.

(** [excludePatterns.commonPatterns], "/^\s*(for|while|if|else|switch|catch)\s*\(/" *)
Definition commonPatterns : regex :=
  anchored (seq [ws0; alts [lit "for"; lit "while"; lit "if"; lit "else";
                            lit "switch"; lit "catch"]; ws0; lit "("]).

(** The arrays [functions] and [results.lineNumbers]. *)
Definition found : Type := list str * list num.

(** The loop over the pattern types for one line. *)
Fixpoint check_patterns (langPatterns : list (string * regex))
    (lineObj : Line.t) (acc : found) : M found :=
  match langPatterns with
  | [] => ret acc
  | (_, rx) :: rest =>
      let currentContext := Line.context lineObj in
      let! m1 := match_ currentContext rx in
      if m1 then
        let! m2 := match_ currentContext rx in
        let! accepted := (if m2 then not_match currentContext commonPatterns
                          else ret false) in
        if accepted then
          (* push both, then break *)
          ret (acc.1 ++ [trim (ToString currentContext)],
                acc.2 ++ [Line.lineNumber lineObj])
        else check_patterns rest lineObj acc
      else check_patterns rest lineObj acc
  end.

(** The callback of [addedLines.forEach]. *)
Definition check_line (langPatterns : list (string * regex)) (acc : found)
    (lineObj : Line.t) : M found :=
  let currentContext := Line.context lineObj in
  if test commonPatterns (ToString currentContext) then ret acc
  else check_patterns langPatterns lineObj acc.

Definition containsNewFunctions (addedLines : list Line.t) (language : value)
    : M Results.t :=
  let currentLanguage := language in
  match patterns_get currentLanguage with
  | None =>
      let! _u := logger_warn (u "No patterns defined for language: "
                         ++ ToString currentLanguage) in
      ret (Results.mk false [] [] language)
  | Some langPatterns =>
      let! acc := forEach (check_line langPatterns) addedLines ([], []) in
      ret (Results.mk (bool_decide (0 < length acc.1)) acc.1 acc.2 language)
  end.

(** ** Imports *)

(** The own properties of the object [patterns] of [containsImports]. *)
Definition import_patterns : gmap str regex :=
  list_to_map
    [ (* "/import\s+.*from|require\s*\(/" *)
      (u "js", anywhere (Alt (seq [lit "import"; ws1; Star dot; lit "from"])
                             (seq [lit "require"; ws0; lit "("])));
      (u "ts", anywhere (Alt (seq [lit "import"; ws1; Star dot; lit "from"])
                             (seq [lit "require"; ws0; lit "("])));
      (* "/import\s+|from\s+.*import/" *)
      (u "py", anywhere (Alt (seq [lit "import"; ws1])
                             (seq [lit "from"; ws1; Star dot; lit "import"])));
      (* "/import\s+/" *)
      (u "java", anywhere (seq [lit "import"; ws1]));
      (* "/import\s+\(/" *)
      (u "go", anywhere (seq [lit "import"; ws1; lit "("]));
      (* "/use\s+/" *)
      (u "rust", anywhere (seq [lit "use"; ws1]));
      (* "/require\s+/" *)
      (u "ruby", anywhere (seq [lit "require"; ws1])) ].

(** The callback of [addedLines.forEach]: [patterns[language].test(line)]
    throws when [patterns[language]] is [undefined], and when it is a member
    inherited from [Object.prototype], none of which has a [test] method. *)
Definition check_import (language : value) (addedImports : list value)
    (lineObj : Line.t) : M (list value) :=
  let line := Line.context lineObj in
  match import_patterns !! ToString language with
  | Some pattern =>
      if test pattern (ToString line) then ret (addedImports ++ [line])
      else ret addedImports
  | None => throw TypeError
  end.

Definition containsImports (addedLines : list Line.t) (language : value)
    : M (list value) :=
  forEach (check_import language) addedLines [].

(** ** Test declarations *)

(** The callback reads [testPatterns[language]], and no [language] is in
    scope of [hasTestChanges(addedLines)]: the first line visited throws
    before the table is looked at. The method has no [return]. *)
Definition hasTestChanges (addedLines : list Line.t) : M value :=
  let! _u := forEach (fun (_ : unit) (_ : Line.t) => throw ReferenceError)
                     addedLines () in
  ret VUndefined.

(** ** The analyzer *)

Module Parsed.
Record t := mk {
  addedLines : list Line.t;
  deletedLines : list Line.t;
  filename : value;
  isTestFile : bool;
  hasNewFunctions : Results.t;
  hasImportChanges : list value;
  hasTestChanges : value }.
End Parsed.

(** The properties of the object literal are evaluated in the order they
    are written. *)
Definition analyzeDiff (patch : str) : M Parsed.t :=
  let! _u := logger_info (u "Analyzing diff") in
  let addedLines := getAddedLines patch in
  let deletedLines := getDeletedLines patch in
  let filename := detectLanguage patch in
  let isTest := isTestFile (detectLanguage patch) in
  let! newFunctions :=
    containsNewFunctions (getAddedLines patch) (detectLanguage patch) in
  let! importChanges :=
    containsImports (getAddedLines patch) (detectLanguage patch) in
  let! testChanges :=
    (if isTestFile (detectLanguage patch)
     then hasTestChanges (getAddedLines patch)
     else ret (VBool false)) in
  ret (Parsed.mk addedLines deletedLines filename isTest newFunctions
         importChanges testChanges).

(** A call from a fresh log: what was logged, and how the call ended. *)
Definition run {A : Type} (m : M A) : list (level * str) * outcome A := m [].

(** * The tracker and the language detector as the specification words them *)

Module Spec.

Inductive mode := Added | Removed.

(** Section 4.1: the counter is undefined until the first hunk header,
    which sets it, as every later header does; before that header nothing is
    recorded (a patch without hunk headers yields an empty result). From
    then on a line in [+] is recorded under [Added] and always moves the
    counter on; a line in [-] is recorded under [Removed] with the current
    counter, which stays; a context line moves the counter on; any other
    line is ignored. *)
Fixpoint trackLines_loop (m : mode) (lines : list str) (counter : option num)
    : list Line.t :=
  match lines with
  | [] => []
  | line :: rest =>
      match hunkMatch line, counter with
      | Some g, _ => trackLines_loop m rest (Some (parseInt g))
      | None, None => trackLines_loop m rest None
      | None, Some n =>
          if startsWith line (u "+") && negb (startsWith line (u "+++")) then
            let here := Line.mk n (VStr (slice line 1)) VUndefined in
            match m with
            | Added => here :: trackLines_loop m rest (Some (incr n))
            | Removed => trackLines_loop m rest (Some (incr n))
            end
          else if startsWith line (u "-") && negb (startsWith line (u "---")) then
            let here := Line.mk n (VStr (slice line 1)) VUndefined in
            match m with
            | Added => trackLines_loop m rest (Some n)
            | Removed => here :: trackLines_loop m rest (Some n)
            end
          else if startsWith line (u " ") then
            trackLines_loop m rest (Some (incr n))
          else trackLines_loop m rest (Some n)
      end
  end.

Definition trackLines (patch : str) (m : mode) : list Line.t :=
  trackLines_loop m (split patch LF) None.

Definition toLowerCase (s : str) : str :=
  map (fun c => if ((65 <=? c) && (c <=? 90))%N then (c + 32)%N else c) s.

(** Section 4.2: the first line beginning with [+++]; the marker and the
    [b/] prefix stripped, whitespace trimmed; the substring after the last
    [.] of what is left, lower-cased; [unknown] without such a line or
    without an extension. *)
Fixpoint detectLanguage_loop (lines : list str) : str :=
  match lines with
  | [] => u "unknown"
  | line :: rest =>
      if startsWith line (u "+++") then
        let path := trim (replace (replace line (u "+++") []) (u "b/") []) in
        match split path 46 with
        | [] | [_] => u "unknown"
        | pieces => toLowerCase (default [] (last pieces))
        end
      else detectLanguage_loop rest
  end.

Definition detectLanguage (patch : str) : str :=
  detectLanguage_loop (split patch LF).

End Spec.

(** * Vocabulary of the statements *)

(** The line that [detectLanguage] stops at, and the path it reads there. *)
Definition is_target_header (line : str) : bool :=
  startsWith (trim line) (u "+++").

Definition target_path (line : str) : str :=
  trim (replace (replace (trim line) (u "+++") []) (u "b/") []).

(** [a] occurs in [s] as a substring. *)
Definition occurs (a s : str) : Prop := exists pre post, s = pre ++ a ++ post.

(** The lines of a patch as the trackers sort them. *)
Definition is_added (line : str) : bool :=
  startsWith line (u "+") && negb (startsWith line (u "+++")).

Definition is_removed (line : str) : bool :=
  startsWith line (u "-") && negb (startsWith line (u "---")).

Definition is_context (line : str) : bool := startsWith line (u " ").

(** The two trackers are one loop over the lines they record, [marked]:
    [track] is what the loop pushes from the counter [n] on, and
    [counter_after] where it leaves the counter (lemmas
    [getAddedLines_loop_track] and [getDeletedLines_loop_track]). *)
Fixpoint track (marked : str -> bool) (lines : list str) (n : num)
    : list Line.t :=
  match lines with
  | [] => []
  | line :: rest =>
      match hunkMatch line with
      | Some g => track marked rest (parseInt g)
      | None =>
          if marked line then
            Line.mk n (VStr (slice line 1)) VUndefined
              :: track marked rest (incr n)
          else if is_context line then track marked rest (incr n)
          else track marked rest n
      end
  end.

Fixpoint counter_after (marked : str -> bool) (lines : list str) (n : num)
    : num :=
  match lines with
  | [] => n
  | line :: rest =>
      match hunkMatch line with
      | Some g => counter_after marked rest (parseInt g)
      | None =>
          if marked line || is_context line
          then counter_after marked rest (incr n)
          else counter_after marked rest n
      end
  end.

(** No hunk header of [lines] declares a start below the number that the
    counter, run from [n], has reached when the header is read. *)
Fixpoint no_step_back (marked : str -> bool) (lines : list str) (n : num)
    : Prop :=
  match lines with
  | [] => True
  | line :: rest =>
      match hunkMatch line with
      | Some g => num_le n (parseInt g) /\ no_step_back marked rest (parseInt g)
      | None =>
          if marked line || is_context line
          then no_step_back marked rest (incr n)
          else no_step_back marked rest n
      end
  end.

(** The line numbers of an array of line objects, in order. *)
Definition numbers (out : list Line.t) : list num := map Line.lineNumber out.

(** A run of one or more decimal digits, and the optional count [,digits]
    of a hunk header. *)
Definition digits (d : str) : Prop :=
  d <> [] /\ Forall (fun c => is_digit c = true) d.

Definition count_part (c : str) : Prop :=
  c = [] \/ exists d, c = 44%N :: d /\ digits d.

(** What follows a run of digits in a header is no digit. *)
Definition stops (rest : str) : Prop :=
  match rest with
  | [] => True
  | c :: _ => is_digit c = false
  end.

(** What [containsNewFunctions] reports: the texts of [newFunctions] next to
    the numbers of [lineNumbers]. *)
Definition reported (r : Results.t) : list (str * num) :=
  zip (Results.newFunctions r) (Results.lineNumbers r).

(** What one line can add to the arrays: nothing, or its trimmed text and
    its number, when its [context] is a string that a pattern of the
    language matches and the exclusion pattern does not. *)
Definition line_adds (langPatterns : list (string * regex)) (lineObj : Line.t)
    (acc acc' : found) : Prop :=
  acc' = acc \/
  exists s name rx,
    Line.context lineObj = VStr s /\ (name, rx) ∈ langPatterns /\
    test rx s = true /\ test commonPatterns s = false /\
    acc' = (acc.1 ++ [trim s], acc.2 ++ [Line.lineNumber lineObj]).

(** The text [text] under the number [n] comes from a line object of
    [addedLines]: it is the trimmed [context] of the object, a string that
    a pattern of [langPatterns] matches and the exclusion pattern does not. *)
Definition reported_from (addedLines : list Line.t)
    (langPatterns : list (string * regex)) (text : str) (n : num) : Prop :=
  exists lineObj s name rx,
    lineObj ∈ addedLines /\ Line.context lineObj = VStr s /\
    Line.lineNumber lineObj = n /\ text = trim s /\
    (name, rx) ∈ langPatterns /\ test rx s = true /\
    test commonPatterns s = false.

(** The keywords of the exclusion pattern. *)
Definition control_keywords : list str :=
  map u ["for"; "while"; "if"; "else"; "switch"; "catch"].

Definition blank (w : str) : Prop := Forall (fun c => is_space c = true) w.

(** Every word of [r] holds the code unit [c]: a sufficient test on the
    syntax of the pattern. *)
Fixpoint demands (c : N) (r : re) : bool :=
  match r with
  | Void => true
  | Eps => false
  | Class neg items =>
      negb neg && forallb (fun i => match i with
                                    | Lit d => (d =? c)%N
                                    | _ => false
                                    end) items
  | Cat r1 r2 => demands c r1 || demands c r2
  | Alt r1 r2 => demands c r1 && demands c r2
  | Star _ => false
  end.

(** * Sample patches *)

(** One added function at line 10 of [calc.js]. *)
Definition patch_computeTotal : str :=
  unlines [ u "--- a/calc.js";
            u "+++ b/calc.js";
            u "@@ -9,0 +10,1 @@";
            u "+function computeTotal(x, y) {" ].

(** A line added to a file whose language has no pattern table. *)
Definition patch_readme : str :=
  unlines [ u "--- a/README.md";
            u "+++ b/README.md";
            u "@@ -1 +1,2 @@";
            u " # Title";
            u "+More text" ].

(** A removed line, a context line, a removed line. *)
Definition patch_removals : str :=
  unlines [ u "--- a/calc.js";
            u "+++ b/calc.js";
            u "@@ -5,3 +5,1 @@";
            u "-let a = 1;";
            u " let c = 3;";
            u "-let b = 2;" ].

(** A change to [src/app.py]. *)
Definition patch_app_py : str :=
  unlines [ u "--- a/src/app.py";
            u "+++ b/src/app.py";
            u "@@ -1,2 +1,3 @@";
            u " import os";
            u "+import sys";
            u " " ].

(** Text without a hunk header. *)
Definition patch_no_header : str :=
  unlines [ u "+++ b/notes.txt";
            u " kept";
            u "+added";
            u "-removed" ].

(** Two hunks of one file, in order. *)
Definition patch_two_hunks : str :=
  unlines [ u "--- a/calc.js";
            u "+++ b/calc.js";
            u "@@ -9,2 +9,3 @@";
            u " const a = 1;";
            u "+const b = 2;";
            u " const c = 3;";
            u "@@ -20,2 +21,3 @@";
            u "+const d = 4;";
            u " const e = 5;";
            u "+const f = 6;" ].

(** Two files changed in one diff, as the caller of [analyzeDiff] fetches
    it for a pull request. *)
Definition patch_two_files : str :=
  unlines [ u "diff --git a/a.js b/a.js";
            u "--- a/a.js";
            u "+++ b/a.js";
            u "@@ -10,0 +10,1 @@";
            u "+let x = 1;";
            u "diff --git a/b.js b/b.js";
            u "--- a/b.js";
            u "+++ b/b.js";
            u "@@ -1,0 +1,1 @@";
            u "+let y = 2;" ].

(** Two hunks of one file, the second declaring an earlier start. *)
Definition patch_hunks_out_of_order : str :=
  unlines [ u "--- a/calc.js";
            u "+++ b/calc.js";
            u "@@ -20,0 +21,1 @@";
            u "+const d = 4;";
            u "@@ -9,0 +10,1 @@";
            u "+const b = 2;" ].

(** A line removed from a file in a directory of tests, below a directory
    with a dot in its name. *)
Definition patch_tests_dir : str :=
  unlines [ u "--- a/v1.0/__tests__/calc";
            u "+++ b/v1.0/__tests__/calc";
            u "@@ -1,2 +1,1 @@";
            u " keep";
            u "-gone" ].

(** A line removed from a test file. *)
Definition patch_test_file : str :=
  unlines [ u "--- a/calculator.test.js";
            u "+++ b/calculator.test.js";
            u "@@ -1,2 +1,1 @@";
            u " keep";
            u "-gone" ].

(** The line objects that the JSDoc of the matchers describes,
    [{ lineNumber, context }]. *)
Definition line_with_context (n : N) (text : string) : Line.t :=
  Line.mk (Fin n) VUndefined (VStr (u text)).

(** The control-flow line of the specification. *)
Definition for_line : str := u "for (let i = 0; i < 10; i++) {".

(** * Vocabulary of the further properties *)

(** The lines that move the counter of [getAddedLines] on. *)
Definition takes_a_slot (line : str) : bool := is_added line || is_context line.

(** [typeof v === "string"] *)
Definition is_string (v : value) : bool :=
  match v with
  | VStr _ => true
  | _ => false
  end.

(** A text that [containsNewFunctions] takes for a function header under
    the patterns [langPatterns]: the exclusion pattern does not match it and
    one of the patterns does. *)
Definition function_text (langPatterns : list (string * regex)) (s : str) : bool :=
  negb (test commonPatterns s) && existsb (fun p => test p.2 s) langPatterns.

Definition function_line (langPatterns : list (string * regex))
    (lineObj : Line.t) : bool :=
  match Line.context lineObj with
  | VStr s => function_text langPatterns s
  | _ => false
  end.

(** The line terminators, which [.] does not match. *)
Definition is_line_terminator (c : N) : bool :=
  ((c =? 10) || (c =? 13) || (c =? 8232) || (c =? 8233))%N.

Definition one_line (x : str) : Prop :=
  Forall (fun c => is_line_terminator c = false) x.

(** [s] ends with [a]. *)
Definition ends_with (a s : str) : Prop := exists pre, s = pre ++ a.

(** The languages of the two tables. *)
Definition function_languages : list str := map u ["js"; "py"; "java"; "go"].

Definition import_languages : list str :=
  map u ["js"; "ts"; "py"; "java"; "go"; "rust"; "ruby"].

(** The warning of [containsNewFunctions]. *)
Definition no_patterns_warning (language : value) : level * str :=
  (warn, u "No patterns defined for language: " ++ ToString language).

(** The record that [analyzeDiff] builds from a patch when none of the
    matchers finds anything. *)
Definition bare_record (patch : str) : Parsed.t :=
  Parsed.mk (getAddedLines patch) (getDeletedLines patch) (detectLanguage patch)
    (isTestFile (detectLanguage patch))
    (Results.mk false [] [] (detectLanguage patch))
    []
    (if isTestFile (detectLanguage patch) then VUndefined else VBool false).

(** The loop over the pattern types has nothing to visit. *)
Definition nothing_to_try (langPatterns : list (string * regex)) : bool :=
  match langPatterns with
  | [] => true
  | _ :: _ => false
  end.

(** The line objects that [containsNewFunctions] takes for function
    headers, and the texts it reports for them. *)
Definition function_lines (langPatterns : list (string * regex))
    (addedLines : list Line.t) : list Line.t :=
  List.filter (function_line langPatterns) addedLines.

Definition reported_texts (hits : list Line.t) : list str :=
  map (fun o => trim (ToString (Line.context o))) hits.

(** The [context] values that an import pattern matches. *)
Definition import_lines (pattern : regex) (addedLines : list Line.t) : list value :=
  List.filter (fun line => test pattern (ToString line))
              (map Line.context addedLines).

(** Does [analyzeDiff] get to the end on this patch. *)
Definition gets_through (patch : str) : bool :=
  match getAddedLines patch with
  | [] => true
  | _ :: _ =>
      bool_decide (ToString (detectLanguage patch) ∈ [u "ts"; u "rust"; u "ruby"])
  end.

(** What a call of [analyzeDiff] adds to the log. *)
Definition analysis_log (patch : str) : list (level * str) :=
  (info, u "Analyzing diff")
    :: match patterns_get (detectLanguage patch) with
       | None => [no_patterns_warning (detectLanguage patch)]
       | Some _ => []
       end.

(** An import added to a TypeScript file. *)
Definition patch_ts_import : str :=
  unlines [ u "--- a/src/api.ts";
            u "+++ b/src/api.ts";
            u "@@ -1,2 +1,3 @@";
            u " import a from 'a';";
            u "+import b from 'b';";
            u " export const x = a;" ].

(** The lines that move the counter of [getDeletedLines] on. *)
Definition moves_deleted_counter (line : str) : bool :=
  is_removed line || is_context line.

(** A line added to a file under [v1.0/__tests__]. *)
Definition patch_tests_dir_added : str :=
  unlines [ u "--- a/v1.0/__tests__/calc";
            u "+++ b/v1.0/__tests__/calc";
            u "@@ -1,1 +1,2 @@";
            u " keep";
            u "+more" ].

(** The two halves of [patch_two_files], one file each. *)
Definition patch_a_js : str :=
  unlines [ u "diff --git a/a.js b/a.js";
            u "--- a/a.js";
            u "+++ b/a.js";
            u "@@ -10,0 +10,1 @@";
            u "+let x = 1;" ].

Definition patch_b_js : str :=
  unlines [ u "diff --git a/b.js b/b.js";
            u "--- a/b.js";
            u "+++ b/b.js";
            u "@@ -1,0 +1,1 @@";
            u "+let y = 2;" ].

(** * The earlier draft of the parser

    The draft of class [DiffParser] that the earlier webhook handler calls
    through [analyzeChange]. Its hunk-header pattern, its test-file patterns
    and its table of import patterns are those of [diffParser.js]. *)

Module Draft.

(** The trackers of the draft keep the text of a line under [context]. *)
Fixpoint getAddedLines_loop (lines : list str) (newLineNumber : num)
    (addedLines : list Line.t) : list Line.t :=
  match lines with
  | [] => addedLines
  | line :: rest =>
      match hunkMatch line with
      | Some g =>
          (* Hunk header *)
          getAddedLines_loop rest (parseInt g) addedLines
      | None =>
          if startsWith line (u "+") && negb (startsWith line (u "+++")) then
            (* Added line *)
            getAddedLines_loop rest (incr newLineNumber)
              (addedLines ++ [Line.mk newLineNumber VUndefined (VStr (slice line 1))])
          else if startsWith line (u " ") then
            (* Context line *)
            getAddedLines_loop rest (incr newLineNumber) addedLines
          else getAddedLines_loop rest newLineNumber addedLines
      end
  end.

Definition getAddedLines (patch : str) : list Line.t :=
  getAddedLines_loop (split patch LF) (Fin 0) [].

Fixpoint getDeletedLines_loop (lines : list str) (newLineNumber : num)
    (addedLines : list Line.t) : list Line.t :=
  match lines with
  | [] => addedLines
  | line :: rest =>
      match hunkMatch line with
      | Some g =>
          (* Hunk header *)
          getDeletedLines_loop rest (parseInt g) addedLines
      | None =>
          if startsWith line (u "-") && negb (startsWith line (u "---")) then
            getDeletedLines_loop rest (incr newLineNumber)
              (addedLines ++ [Line.mk newLineNumber VUndefined (VStr (slice line 1))])
          else if startsWith line (u " ") then
            (* Context line *)
            getDeletedLines_loop rest (incr newLineNumber) addedLines
          else getDeletedLines_loop rest newLineNumber addedLines
      end
  end.

Definition getDeletedLines (patch : str) : list Line.t :=
  getDeletedLines_loop (split patch LF) (Fin 0) [].

(** [s.indexOf(c)] for one code unit: -1 when [c] does not occur. *)
Fixpoint indexOf (s : str) (c : N) : Z :=
  match s with
  | [] => (-1)%Z
  | x :: s' =>
      if (x =? c)%N then 0%Z
      else let i := indexOf s' c in
           if (i <? 0)%Z then (-1)%Z else (i + 1)%Z
  end.

(** [s.substring(start)]: a negative start counts as 0, one beyond the end
    as the length. *)
Definition substring (s : str) (start : Z) : str := drop (Z.to_nat start) s.

(** The object that [detectLanguage] returns: [{}] at first, its [name]
    set at every line that begins with [+++]. *)
Module Language.
Record t := mk { name : value }.
End Language.

Fixpoint detectLanguage_loop (line : list str) (language : Language.t)
    : Language.t :=
  match line with
  | [] => language
  | currentLine :: rest =>
      if startsWith currentLine (u "+++") then
        let name := trim (replace (replace currentLine (u "+++") []) (u "b/") []) in
        let parsedName := trim (substring name (indexOf name 46 + 1)) in
        detectLanguage_loop rest (Language.mk (VStr parsedName))
      else detectLanguage_loop rest language
  end.

Definition detectLanguage (patch : str) : Language.t :=
  detectLanguage_loop (split patch LF) (Language.mk VUndefined).

(** [analyzeChange] passes the object, not its [name]: [pattern.test]
    applies ToString to it, and the text of a plain object is
    [[object Object]], whatever its properties. *)
Definition ToString_object (language : Language.t) : str := u "[object Object]".

Definition isTestFile (filename : Language.t) : bool :=
  existsb (fun pattern => test pattern (ToString_object filename)) testPatterns.

(** [patterns[language.name]]: a pattern of the table, [undefined], or a
    member inherited from [Object.prototype], which is truthy and has no
    [test] method. *)
Inductive looked_up :=
| Pattern (pattern : regex)
| Missing
| Inherited.

Definition patterns_get (name : value) : looked_up :=
  match import_patterns !! ToString name with
  | Some pattern => Pattern pattern
  | None =>
      if bool_decide (ToString name ∈ Object_prototype) then Inherited
      else Missing
  end.

(** The loop [for (let line of addedLines)] returns in its first round:
    what [console.log] printed, and how the call ended. Without a line the
    method returns nothing, [undefined]. *)
Definition containsImports (addedLines : list Line.t) (language : Language.t)
    : list value * outcome value :=
  let pattern := patterns_get (Language.name language) in
  match addedLines with
  | [] => ([], Returned VUndefined)
  | line :: _ =>
      ([Line.context line],
       match pattern with
       | Pattern pattern =>
           Returned (VBool (test pattern (ToString (Line.context line))))
       | Inherited => Thrown TypeError
       | Missing => Returned (VBool false)
       end)
  end.

Module Parsed.
Record t := mk {
  addedLines : list Line.t;
  deletedLines : list Line.t;
  filename : Language.t;
  isTestFile : bool;
  hasImportChanges : value }.
End Parsed.

Definition analyzeChange (patch : str) : list value * outcome Parsed.t :=
  let addedLines := getAddedLines patch in
  let deletedLines := getDeletedLines patch in
  let filename := detectLanguage patch in
  let isTest := isTestFile (detectLanguage patch) in
  match containsImports (getAddedLines patch) (detectLanguage patch) with
  | (printed, Returned hasImportChanges) =>
      (printed,
       Returned (Parsed.mk addedLines deletedLines filename isTest hasImportChanges))
  | (printed, Thrown e) => (printed, Thrown e)
  end.

End Draft.

(** A record of the current trackers with its text under [context], as the
    draft has it. *)
Definition under_context (lineObj : Line.t) : Line.t :=
  Line.mk (Line.lineNumber lineObj) VUndefined (Line.content lineObj).

(** A line begins with [+++] as the loop of the draft's [detectLanguage]
    tests it, and the name the loop reads there. *)
Definition is_draft_header (line : str) : bool := startsWith line (u "+++").

Definition draft_name (line : str) : str :=
  let name := trim (replace (replace line (u "+++") []) (u "b/") []) in
  trim (Draft.substring name (Draft.indexOf name 46 + 1)).

(** A change to [calculator.test.js]. *)
Definition patch_calculator_test : str :=
  unlines [ u "--- a/calculator.test.js";
            u "+++ b/calculator.test.js";
            u "@@ -1,1 +1,2 @@";
            u " const calc = require('./calculator');";
            u "+const assert = require('assert');" ].

(** A line added to a file called [notes.constructor]. *)
Definition patch_notes_constructor : str :=
  unlines [ u "--- a/notes.constructor";
            u "+++ b/notes.constructor";
            u "@@ -1,1 +1,2 @@";
            u " first";
            u "+second" ].
(** * Lemmas *)

Ltac invert H := inversion H; clear H; subst.

(** ** The matcher against the semantics of patterns *)

Section Matcher.

Lemma nullable_Matches (r : re) : nullable r = true <-> Matches r [].
Proof.
  induction r as [| | neg items | r1 IH1 r2 IH2 | r1 IH1 r2 IH2 | r IH]; simpl.
  - split; [discriminate | intros H; invert H].
  - split; [constructor | reflexivity].
  - split; [discriminate | intros H; invert H].
  - rewrite andb_true_iff, IH1, IH2. split.
    + intros [H1 H2]. apply (MCat _ _ [] []); assumption.
    + intros H. invert H.
      match goal with E : _ ++ _ = [] |- _ => apply app_eq_nil in E as [-> ->] end.
      split; assumption.
  - rewrite orb_true_iff, IH1, IH2. split.
    + intros [H | H]; [apply MAltL | apply MAltR]; assumption.
    + intros H. invert H; [left | right]; assumption.
  - split; [constructor | reflexivity].
Qed.

Lemma cat'_Matches (a b : re) (s : str) :
  Matches (cat' a b) s <-> Matches (Cat a b) s.
Proof.
  destruct a; simpl; try tauto.
  - split; intros H; invert H. match goal with H : Matches Void _ |- _ => invert H end.
  - split.
    + intros H. apply (MCat Eps b [] s); [constructor | assumption].
    + intros H. invert H. match goal with H : Matches Eps _ |- _ => invert H end.
      assumption.
Qed.

Lemma alt'_Matches (a b : re) (s : str) :
  Matches (alt' a b) s <-> Matches (Alt a b) s.
Proof.
  assert (V : forall t, ~ Matches Void t) by (intros t H; invert H).
  destruct a; simpl;
    try (split; [intros H; apply MAltR; exact H
                | intros H; invert H; [exfalso; eapply V; eassumption | assumption]]);
    destruct b; try tauto;
    (split; [intros H; apply MAltL; exact H
            | intros H; invert H; [assumption | exfalso; eapply V; eassumption]]).
Qed.

(** A word of [r*] that starts with [c] starts with a word of [r] that does. *)
Lemma Star_cons (r : re) (c : N) (s : str) :
  Matches (Star r) (c :: s) ->
  exists s1 s2, s = s1 ++ s2 /\ Matches r (c :: s1) /\ Matches (Star r) s2.
Proof.
  intros H. remember (Star r) as r' eqn:Er. remember (c :: s) as w eqn:Ew.
  revert s Er Ew.
  induction H as [| | | | | | r0 w1 w2 H1 _ H2 IH2]; intros t Er Ew;
    try discriminate.
  invert Er. destruct w1 as [|c1 w1]; simpl in Ew.
  - apply IH2; [reflexivity | assumption].
  - invert Ew. exists w1, w2. auto.
Qed.

Lemma der_Matches (r : re) (c : N) (s : str) :
  Matches (der c r) s <-> Matches r (c :: s).
Proof.
  revert s.
  induction r as [| | neg items | r1 IH1 r2 IH2 | r1 IH1 r2 IH2 | r IH];
    intros s; simpl.
  - split; intros H; invert H.
  - split; intros H; invert H.
  - destruct (class_mem neg items c) eqn:E.
    + split; intros H; invert H; [constructor; assumption | constructor].
    + split; intros H; invert H. congruence.
  - rewrite alt'_Matches. split.
    + intros H. invert H.
      * match goal with H : Matches (cat' _ _) _ |- _ =>
          apply cat'_Matches in H; invert H end.
        apply (MCat r1 r2 (c :: _) _); [apply IH1 |]; assumption.
      * destruct (nullable r1) eqn:E;
          [| match goal with H : Matches Void _ |- _ => invert H end].
        apply (MCat r1 r2 [] (c :: s));
          [apply nullable_Matches, E | apply IH2; assumption].
    + intros H. invert H.
      match goal with E : ?s1 ++ _ = c :: s |- _ =>
        destruct s1 as [|c1 s1]; simpl in E end.
      * subst. apply MAltR.
        match goal with H : Matches r1 [] |- _ =>
          apply nullable_Matches in H; rewrite H end.
        apply IH2; assumption.
      * match goal with E : _ :: _ = _ :: _ |- _ => invert E end.
        apply MAltL, cat'_Matches. constructor; [apply IH1 |]; assumption.
  - rewrite alt'_Matches. split; intros H; invert H;
      solve [apply MAltL, IH1; assumption | apply MAltR, IH2; assumption].
  - rewrite cat'_Matches. split.
    + intros H. invert H. apply (MStarApp r (c :: _) _); [apply IH |]; assumption.
    + intros H. apply Star_cons in H as (s1 & s2 & -> & H1 & H2).
      constructor; [apply IH |]; assumption.
Qed.

Lemma accepts_Matches (r : re) (s : str) : accepts r s = true <-> Matches r s.
Proof.
  revert r. induction s as [|c s IH]; intros r; simpl.
  - apply nullable_Matches.
  - rewrite IH. apply der_Matches.
Qed.

(** The words of [[...]*] are the runs of code units of the class. *)
Lemma Star_Class_Matches (neg : bool) (items : list item) (w : str) :
  Matches (Star (Class neg items)) w <->
  Forall (fun c => class_mem neg items c = true) w.
Proof.
  split.
  - intros H. remember (Star (Class neg items)) as r eqn:Er.
    induction H as [| | | | | | r0 s1 s2 H1 _ _ IH2]; try discriminate.
    + constructor.
    + injection Er as ->. apply Forall_app. split; [| apply IH2; reflexivity].
      invert H1. constructor; [assumption | constructor].
  - induction 1 as [|c w Hc _ IH]; [constructor |].
    apply (MStarApp _ [c] w); [constructor; exact Hc | exact IH].
Qed.

Lemma Star_any (s : str) : Matches (Star any) s.
Proof.
  induction s as [|c s IH]; [constructor |].
  apply (MStarApp any [c] s); [constructor; reflexivity | assumption].
Qed.

(** [test] finds a word of the body in the string, at the start under [^]
    and up to the end under [$]. *)
Lemma test_spec (rx : regex) (s : str) :
  test rx s = true <->
  exists a m b, s = a ++ m ++ b /\ Matches (body rx) m
                /\ (bol rx = true -> a = []) /\ (eol rx = true -> b = []).
Proof.
  unfold test. rewrite accepts_Matches. split.
  - intros H. invert H.
    match goal with H : Matches (Cat _ _) _ |- _ => invert H end.
    match goal with
      Ha : Matches (if bol rx then _ else _) ?a,
      Hm : Matches (body rx) ?m,
      Hb : Matches (if eol rx then _ else _) ?b |- _ =>
        exists a, m, b; repeat split; [exact Hm | |]
    end.
    + intros E. rewrite E in *.
      match goal with H : Matches Eps _ |- _ => invert H end. reflexivity.
    + intros E. rewrite E in *.
      match goal with H : Matches Eps _ |- _ => invert H end. reflexivity.
  - intros (a & m & b & -> & Hm & Ha & Hb).
    constructor; [| constructor; [exact Hm |]].
    + destruct (bol rx); [rewrite Ha by reflexivity; constructor | apply Star_any].
    + destruct (eol rx); [rewrite Hb by reflexivity; constructor | apply Star_any].
Qed.

End Matcher.


(** ** Strings *)

Lemma split_nonempty (s : str) (c : N) : split s c <> [].
Proof.
  destruct s as [|a s]; simpl; [discriminate |].
  destruct (a =? c)%N; [discriminate |]. destruct (split s c); discriminate.
Qed.

(** Splitting loses nothing: the pieces joined by the separator are the
    string, and no piece holds the separator. *)
Lemma join_split (s : str) (c : N) : join c (split s c) = s.
Proof.
  induction s as [|a s IH]; simpl; [reflexivity |].
  destruct (N.eqb_spec a c) as [->|Hne].
  - pose proof (split_nonempty s c) as Hn.
    simpl. destruct (split s c) as [|p ps]; [contradiction |].
    rewrite IH. reflexivity.
  - pose proof (split_nonempty s c) as Hn.
    destruct (split s c) as [|p ps]; [contradiction |].
    rewrite <- IH. simpl. destruct ps; reflexivity.
Qed.

Lemma split_pieces (s : str) (c : N) : Forall (fun p => c ∉ p) (split s c).
Proof.
  induction s as [|a s IH]; simpl.
  - constructor; [apply not_elem_of_nil | constructor].
  - destruct (N.eqb_spec a c) as [->|Hne].
    + constructor; [apply not_elem_of_nil | assumption].
    + destruct (split s c) as [|p ps].
      { constructor; [| constructor].
        rewrite not_elem_of_cons. split; [congruence | apply not_elem_of_nil]. }
      inversion IH; subst. constructor; [| assumption].
      rewrite not_elem_of_cons. split; [congruence | assumption].
Qed.

Lemma join_snoc (c : N) (init : list str) (x : str) :
  init <> [] -> join c (init ++ [x]) = join c init ++ c :: x.
Proof.
  induction init as [|p [|q init] IH]; intros Hne; [contradiction | reflexivity |].
  change (join c ((p :: q :: init) ++ [x]))
    with (p ++ c :: join c ((q :: init) ++ [x])).
  rewrite IH by discriminate.
  change (join c (p :: q :: init)) with (p ++ c :: join c (q :: init)).
  rewrite <- app_assoc. reflexivity.
Qed.

(** [s.split(c).pop()] is a string, the part of [s] after its last [c], and
    the whole of [s] when [c] does not occur in it. *)
Lemma pop_split (s : str) (c : N) :
  exists ext, pop (split s c) = VStr ext /\ (c ∉ ext) /\
              (s = ext \/ exists stem, s = stem ++ c :: ext).
Proof.
  pose proof (split_nonempty s c) as Hn.
  pose proof (join_split s c) as Hj.
  pose proof (split_pieces s c) as Hp.
  destruct (exists_last Hn) as (ps & p & E). rewrite E in *.
  exists p. unfold pop. rewrite last_snoc.
  apply Forall_app in Hp as [_ Hp]. inversion Hp; subst.
  split; [reflexivity |]. split; [assumption |].
  destruct ps as [|q ps].
  - left. reflexivity.
  - right. exists (join c (q :: ps)). apply join_snoc. discriminate.
Qed.

(** ** The language tag *)

Lemma detectLanguage_loop_cons (line : str) (rest : list str) :
  detectLanguage_loop (line :: rest) =
    if is_target_header line then pop (split (target_path line) 46)
    else detectLanguage_loop rest.
Proof. reflexivity. Qed.

Lemma detectLanguage_loop_none (lines : list str) :
  Forall (fun l => is_target_header l = false) lines ->
  detectLanguage_loop lines = VNull.
Proof.
  induction 1 as [|l lines Hl _ IH]; [reflexivity |].
  rewrite detectLanguage_loop_cons, Hl. exact IH.
Qed.

Lemma detectLanguage_loop_first (pre : list str) (line : str) (post : list str) :
  Forall (fun l => is_target_header l = false) pre ->
  is_target_header line = true ->
  detectLanguage_loop (pre ++ line :: post) = pop (split (target_path line) 46).
Proof.
  intros Hpre Hline. induction Hpre as [|l pre Hl _ IH].
  - change ([] ++ line :: post) with (line :: post).
    rewrite detectLanguage_loop_cons, Hline. reflexivity.
  - change ((l :: pre) ++ line :: post) with (l :: pre ++ line :: post).
    rewrite detectLanguage_loop_cons, Hl. exact IH.
Qed.

(** ** Numbers *)

Section Rounding.
Local Open Scope N_scope.

(** The exponent, the mantissa and the cut of a number from 2^53 on. *)
Lemma mantissa_bounds (n : N) :
  2 ^ 53 <= n ->
  let e := N.log2 n - 52 in
  1 <= e /\ 2 ^ e = 2 * 2 ^ (e - 1) /\ 0 < 2 ^ (e - 1) /\
  n = 2 ^ e * (n / 2 ^ e) + n mod 2 ^ e /\ n mod 2 ^ e < 2 ^ e /\
  2 ^ 52 <= n / 2 ^ e < 2 ^ 53.
Proof.
  intros Hn e.
  assert (Hpos : 0 < n) by (apply N.lt_le_trans with (2 ^ 53); [reflexivity | exact Hn]).
  assert (Hlog : 53 <= N.log2 n).
  { rewrite <- (N.log2_pow2 53) by lia. apply N.log2_le_mono, Hn. }
  assert (He : N.log2 n = e + 52) by (unfold e; lia).
  destruct (N.log2_spec n Hpos) as [Hlo Hhi].
  rewrite He in Hlo. rewrite <- N.add_1_r, He in Hhi.
  replace (e + 52 + 1) with (e + 53) in Hhi by lia.
  rewrite N.pow_add_r in Hlo, Hhi.
  assert (HP : 0 < 2 ^ e) by (apply N.neq_0_lt_0, N.pow_nonzero; discriminate).
  split; [lia |]. split.
  { replace e with (1 + (e - 1)) at 1 by lia. rewrite N.pow_add_r. reflexivity. }
  split; [apply N.neq_0_lt_0, N.pow_nonzero; discriminate |].
  split; [apply N.div_mod'|]. split; [apply N.mod_lt; lia |]. split.
  - apply N.div_le_lower_bound; [lia |]. lia.
  - apply N.Div0.div_lt_upper_bound. lia.
Qed.


Lemma round_to_53_bits_bounds (n : N) :
  2 ^ 53 <= n ->
  exists m, round_to_53_bits n = m * 2 ^ (N.log2 n - 52) /\ 2 ^ 52 <= m <= 2 ^ 53.
Proof.
  intros Hn. destruct (mantissa_bounds n Hn) as (_ & _ & _ & _ & _ & Hq).
  unfold round_to_53_bits.
  destruct (_ || _); eexists; (split; [reflexivity | lia]).
Qed.

Lemma round_to_53_bits_mono (a b : N) :
  2 ^ 53 <= a -> a <= b -> round_to_53_bits a <= round_to_53_bits b.
Proof.
  intros Ha Hab. assert (Hb : 2 ^ 53 <= b) by lia.
  assert (Hlog : N.log2 a <= N.log2 b) by (apply N.log2_le_mono, Hab).
  destruct (N.eq_dec (N.log2 a) (N.log2 b)) as [E | NE].
  - destruct (mantissa_bounds a Ha) as (He & Hh & Hhpos & Hdiv_a & Hmod_a & Hq_a).
    destruct (mantissa_bounds b Hb) as (_ & _ & _ & Hdiv_b & Hmod_b & Hq_b).
    unfold round_to_53_bits. rewrite <- E in *.
    set (e := N.log2 a - 52) in *. set (P := 2 ^ e) in *.
    set (h := 2 ^ (e - 1)) in *.
    assert (Hq : a / P <= b / P) by (apply N.Div0.div_le_mono, Hab).
    set (qa := a / P) in *. set (qb := b / P) in *.
    set (ra := a mod P) in *. set (rb := b mod P) in *.
    apply N.mul_le_mono_r.
    destruct (N.eq_dec qa qb) as [Eq | Nq].
    + assert (Hr : ra <= rb) by (rewrite Eq in Hdiv_a; lia).
      rewrite Eq.
      destruct (N.ltb_spec h ra), (N.eqb_spec ra h), (N.ltb_spec h rb),
        (N.eqb_spec rb h), (N.odd qb); simpl; lia.
    + destruct (_ || _), (_ || _); lia.
  - destruct (round_to_53_bits_bounds a Ha) as (ma & -> & Hma).
    destruct (round_to_53_bits_bounds b Hb) as (mb & -> & Hmb).
    destruct (mantissa_bounds a Ha) as (He & _).
    assert (Hpow : 2 * 2 ^ (N.log2 a - 52) <= 2 ^ (N.log2 b - 52)).
    { rewrite <- (N.pow_succ_r _ (N.log2 a - 52)) by lia.
      apply N.pow_le_mono_r; lia. }
    assert (HP : 0 < 2 ^ (N.log2 a - 52))
      by (apply N.neq_0_lt_0, N.pow_nonzero; discriminate).
    set (Pa := 2 ^ (N.log2 a - 52)) in *. set (Pb := 2 ^ (N.log2 b - 52)) in *.
    apply N.le_trans with (2 ^ 53 * Pa); [apply N.mul_le_mono_r; lia |].
    apply N.le_trans with (2 ^ 52 * Pb); [| apply N.mul_le_mono_r; lia].
    replace (2 ^ 53) with (2 ^ 52 * 2) by reflexivity.
    rewrite <- N.mul_assoc. apply N.mul_le_mono_l. exact Hpow.
Qed.

Lemma round_to_53_bits_exact (m e : N) :
  2 ^ 52 <= m < 2 ^ 53 -> 1 <= e -> round_to_53_bits (m * 2 ^ e) = m * 2 ^ e.
Proof.
  intros Hm He. unfold round_to_53_bits.
  assert (Hlog : N.log2 (m * 2 ^ e) - 52 = e).
  { rewrite N.log2_mul_pow2 by lia.
    rewrite (N.log2_unique m 52); [lia | lia | exact Hm]. }
  rewrite Hlog.
  assert (HP : 2 ^ e <> 0) by (apply N.pow_nonzero; discriminate).
  assert (Hh : 0 < 2 ^ (e - 1)) by (apply N.neq_0_lt_0, N.pow_nonzero; discriminate).
  rewrite N.div_mul by exact HP. rewrite N.Div0.mod_mul.
  destruct (N.ltb_spec (2 ^ (e - 1)) 0); [lia |].
  destruct (N.eqb_spec 0 (2 ^ (e - 1))); [lia |]. reflexivity.
Qed.

Lemma round_to_53_bits_idem (n : N) :
  2 ^ 53 <= n ->
  2 ^ 53 <= round_to_53_bits n /\
  round_to_53_bits (round_to_53_bits n) = round_to_53_bits n.
Proof.
  intros Hn. destruct (round_to_53_bits_bounds n Hn) as (m & -> & Hm).
  destruct (mantissa_bounds n Hn) as (He & Hh & Hhpos & _).
  set (e := N.log2 n - 52) in *. split.
  - rewrite Hh. set (h := 2 ^ (e - 1)) in *.
    apply N.le_trans with (2 ^ 52 * (2 * h)); [| apply N.mul_le_mono_r; lia].
    replace (2 ^ 53) with (2 ^ 52 * 2) by reflexivity.
    apply N.mul_le_mono_l. lia.
  - destruct (N.eq_dec m (2 ^ 53)) as [-> | Hne].
    + replace (2 ^ 53 * 2 ^ e) with (2 ^ 52 * 2 ^ (e + 1)).
      * apply round_to_53_bits_exact; [split; [lia | reflexivity] | lia].
      * rewrite N.pow_add_r. replace (2 ^ 53) with (2 ^ 52 * 2) by reflexivity.
        rewrite <- N.mul_assoc, (N.mul_comm 2). reflexivity.
    + apply round_to_53_bits_exact; lia.
Qed.

(** Rounding is monotone, and a double rounds to itself. *)
Lemma round53_mono (a b : N) : a <= b -> num_le (round53 a) (round53 b).
Proof.
  intros Hab. unfold round53.
  destruct (N.ltb_spec a (2 ^ 53)) as [Ha | Ha];
    destruct (N.ltb_spec b (2 ^ 53)) as [Hb | Hb]; simpl; try lia.
  - destruct (round_to_53_bits_idem b Hb) as [Hge _].
    destruct (_ <? _); simpl; [lia | exact I].
  - pose proof (round_to_53_bits_mono a b Ha Hab) as Hm.
    destruct (N.ltb_spec (round_to_53_bits a) (2 ^ 1024));
      destruct (N.ltb_spec (round_to_53_bits b) (2 ^ 1024)); simpl; try exact I;
      try assumption.
    lia.
Qed.

Lemma round53_idem (n m : N) : round53 n = Fin m -> round53 m = Fin m.
Proof.
  unfold round53. destruct (N.ltb_spec n (2 ^ 53)) as [Hn | Hn].
  - intros [= <-]. destruct (N.ltb_spec n (2 ^ 53)); [reflexivity | lia].
  - destruct (round_to_53_bits_idem n Hn) as [Hge Hid].
    destruct (N.ltb_spec (round_to_53_bits n) (2 ^ 1024)) as [Hlt | Hlt];
      [| discriminate].
    intros [= <-].
    destruct (N.ltb_spec (round_to_53_bits n) (2 ^ 53)); [lia |].
    rewrite Hid. destruct (N.ltb_spec (round_to_53_bits n) (2 ^ 1024)); [reflexivity | lia].
Qed.

Lemma num_le_refl (x : num) : num_le x x.
Proof. destruct x; simpl; [lia | exact I]. Qed.

Lemma num_le_trans (x y z : num) : num_le x y -> num_le y z -> num_le x z.
Proof. destruct x, y, z; simpl; try tauto; lia. Qed.

Lemma representable_round53 (n : N) : representable (round53 n).
Proof.
  destruct (round53 n) as [m|] eqn:E; [| exact I].
  simpl. eapply round53_idem, E.
Qed.

Lemma representable_parseInt (ds : str) : representable (parseInt ds).
Proof. apply representable_round53. Qed.

Lemma representable_incr (x : num) : representable (incr x).
Proof. destruct x; [apply representable_round53 | exact I]. Qed.

(** The counter never goes down when it is moved on. *)
Lemma le_incr (x : num) : representable x -> num_le x (incr x).
Proof.
  destruct x as [n|]; [| trivial].
  intros H. pose proof (round53_mono n (n + 1)) as Hm.
  cbv [representable] in H. rewrite H in Hm. apply Hm. lia.
Qed.

End Rounding.

(** ** The line trackers *)

Section Trackers.

Variable marked : str -> bool.

Lemma track_cons (line : str) (rest : list str) (n : num) :
  track marked (line :: rest) n =
    match hunkMatch line with
    | Some g => track marked rest (parseInt g)
    | None =>
        if marked line then
          Line.mk n (VStr (slice line 1)) VUndefined :: track marked rest (incr n)
        else if is_context line then track marked rest (incr n)
        else track marked rest n
    end.
Proof. reflexivity. Qed.

Lemma counter_after_cons (line : str) (rest : list str) (n : num) :
  counter_after marked (line :: rest) n =
    match hunkMatch line with
    | Some g => counter_after marked rest (parseInt g)
    | None =>
        if marked line || is_context line
        then counter_after marked rest (incr n)
        else counter_after marked rest n
    end.
Proof. reflexivity. Qed.

Lemma no_step_back_cons (line : str) (rest : list str) (n : num) :
  no_step_back marked (line :: rest) n =
    match hunkMatch line with
    | Some g => num_le n (parseInt g) /\ no_step_back marked rest (parseInt g)
    | None =>
        if marked line || is_context line
        then no_step_back marked rest (incr n)
        else no_step_back marked rest n
    end.
Proof. reflexivity. Qed.

(** What a run of lines pushes does not depend on what follows it, and the
    lines that follow are tracked from the counter the run has left. *)
Lemma track_app (l1 l2 : list str) (n : num) :
  track marked (l1 ++ l2) n =
    track marked l1 n ++ track marked l2 (counter_after marked l1 n).
Proof.
  revert n. induction l1 as [|line l1 IH]; intros n; [reflexivity |].
  change ((line :: l1) ++ l2) with (line :: l1 ++ l2).
  rewrite !track_cons, counter_after_cons.
  destruct (hunkMatch line); [apply IH |].
  destruct (marked line); simpl; [rewrite IH; reflexivity |].
  destruct (is_context line); apply IH.
Qed.

(** A hunk header sets the counter to the start it declares. *)
Lemma counter_after_header (pre : list str) (hdr g : str) (n : num) :
  hunkMatch hdr = Some g ->
  counter_after marked (pre ++ [hdr]) n = parseInt g.
Proof.
  intros Hh. revert n. induction pre as [|line pre IH]; intros n.
  - change ([] ++ [hdr]) with [hdr]. rewrite counter_after_cons, Hh. reflexivity.
  - change ((line :: pre) ++ [hdr]) with (line :: pre ++ [hdr]).
    rewrite counter_after_cons.
    destruct (hunkMatch line); [apply IH |]. destruct (_ || _); apply IH.
Qed.

Lemma sorted_from_lower (a b : num) (l : list num) :
  num_le a b -> StronglySorted num_le (b :: l) -> StronglySorted num_le (a :: l).
Proof.
  intros Hab H. inversion H as [|x l' Hs Hall]; subst.
  constructor; [assumption |].
  eapply Forall_impl; [exact Hall |]. intros y Hy. eapply num_le_trans; eassumption.
Qed.

(** From a counter that no header steps back from, the numbers pushed never
    go down, and none is below the counter. *)
Lemma track_sorted (lines : list str) (n : num) :
  representable n -> no_step_back marked lines n ->
  StronglySorted num_le (n :: numbers (track marked lines n)).
Proof.
  revert n. induction lines as [|line rest IH]; intros n Hn Hs.
  - repeat constructor.
  - rewrite track_cons. rewrite no_step_back_cons in Hs.
    destruct (hunkMatch line) as [g|].
    + destruct Hs as [Hle Hs].
      apply (sorted_from_lower n (parseInt g)); [exact Hle |].
      apply IH; [apply representable_parseInt | exact Hs].
    + destruct (marked line); simpl in Hs |- *.
      * pose proof (IH (incr n) (representable_incr n) Hs) as H.
        apply (sorted_from_lower n (incr n)) in H; [| apply le_incr, Hn].
        constructor; [exact H |]. constructor; [apply num_le_refl |].
        inversion H; assumption.
      * destruct (is_context line).
        -- apply (sorted_from_lower n (incr n)); [apply le_incr, Hn |].
           apply IH; [apply representable_incr | exact Hs].
        -- apply IH; assumption.
Qed.

Lemma no_step_back_without_header (lines : list str) (n : num) :
  Forall (fun l => hunkMatch l = None) lines -> no_step_back marked lines n.
Proof.
  intros H. revert n. induction H as [|line rest Hl _ IH]; intros n; [exact I |].
  rewrite no_step_back_cons, Hl. destruct (_ || _); apply IH.
Qed.

(** Without a hunk header: one record for each marked line, in order. *)
Lemma track_contents (lines : list str) (n : num) :
  Forall (fun l => hunkMatch l = None) lines ->
  map Line.content (track marked lines n) =
    map (fun l => VStr (slice l 1)) (List.filter marked lines).
Proof.
  intros H. revert n. induction H as [|line rest Hl _ IH]; intros n; [reflexivity |].
  rewrite track_cons, Hl. simpl. destruct (marked line); simpl.
  - rewrite IH. reflexivity.
  - destruct (is_context line); apply IH.
Qed.

Lemma track_nil_iff (lines : list str) (n : num) :
  Forall (fun l => hunkMatch l = None) lines ->
  track marked lines n = [] <-> Forall (fun l => marked l = false) lines.
Proof.
  intros H. revert n. induction H as [|line rest Hl _ IH]; intros n.
  - split; [constructor | reflexivity].
  - rewrite track_cons, Hl. destruct (marked line) eqn:E.
    + split; [discriminate | intros HF; inversion HF; congruence].
    + rewrite Forall_cons.
      destruct (is_context line); rewrite IH; tauto.
Qed.

(** Without a hunk header, a marked line is numbered by the lines that
    moved the counter on before it, counted from [n]. *)
Lemma track_number (pre : list str) (line : str) (post : list str) (n : num) :
  Forall (fun l => hunkMatch l = None) (pre ++ line :: post) ->
  marked line = true ->
  Line.mk (Nat.iter (length (List.filter (fun l => marked l || is_context l) pre))
                    incr n)
          (VStr (slice line 1)) VUndefined
    ∈ track marked (pre ++ line :: post) n.
Proof.
  intros H Hm. revert n. induction pre as [|l pre IH]; intros n.
  - change ([] ++ line :: post) with (line :: post) in *.
    inversion H as [|? ? Hl _]; subst. rewrite track_cons, Hl, Hm.
    apply list_elem_of_here.
  - change ((l :: pre) ++ line :: post) with (l :: pre ++ line :: post) in *.
    inversion H as [|? ? Hl Hrest]; subst. rewrite track_cons, Hl.
    simpl List.filter. destruct (marked l); cbn [orb length].
    + rewrite Nat.iter_succ_r. apply list_elem_of_further, IH, Hrest.
    + destruct (is_context l); cbn [length].
      * rewrite Nat.iter_succ_r. apply IH, Hrest.
      * apply IH, Hrest.
Qed.

(** Without a hunk header, the records stand in the order of the marked
    lines: the record of a marked line is at the place that the marked
    lines before it leave, under the number that the counter has then. *)
Lemma track_lookup (pre : list str) (line : str) (post : list str) (n : num) :
  Forall (fun l => hunkMatch l = None) (pre ++ line :: post) ->
  marked line = true ->
  track marked (pre ++ line :: post) n !! length (List.filter marked pre) =
    Some (Line.mk (Nat.iter (length (List.filter
                                       (fun l => marked l || is_context l) pre))
                            incr n)
                  (VStr (slice line 1)) VUndefined).
Proof.
  intros H Hm. revert n. induction pre as [|l pre IH]; intros n.
  - change ([] ++ line :: post) with (line :: post) in *.
    inversion H as [|? ? Hl _]; subst. rewrite track_cons, Hl, Hm. reflexivity.
  - change ((l :: pre) ++ line :: post) with (l :: pre ++ line :: post) in *.
    inversion H as [|? ? Hl Hrest]; subst. rewrite track_cons, Hl.
    simpl List.filter. destruct (marked l); cbn [orb length].
    + rewrite Nat.iter_succ_r. exact (IH Hrest (incr n)).
    + destruct (is_context l); cbn [length].
      * rewrite Nat.iter_succ_r. apply IH, Hrest.
      * apply IH, Hrest.
Qed.

Lemma track_length (lines : list str) (n : num) :
  Forall (fun l => hunkMatch l = None) lines ->
  length (track marked lines n) = length (List.filter marked lines).
Proof.
  intros H. revert n. induction H as [|line rest Hl _ IH]; intros n; [reflexivity |].
  rewrite track_cons, Hl. cbn [List.filter].
  destruct (marked line); cbn [length]; [rewrite IH; reflexivity |].
  destruct (is_context line); apply IH.
Qed.

End Trackers.

Lemma getAddedLines_loop_track (lines : list str) (n : num) (acc : list Line.t) :
  getAddedLines_loop lines n acc = acc ++ track is_added lines n.
Proof.
  revert n acc. induction lines as [|line rest IH]; intros n acc.
  - simpl. rewrite app_nil_r. reflexivity.
  - rewrite track_cons.
    change (getAddedLines_loop (line :: rest) n acc) with
      (match hunkMatch line with
       | Some g => getAddedLines_loop rest (parseInt g) acc
       | None =>
           if is_added line then
             getAddedLines_loop rest (incr n)
               (acc ++ [Line.mk n (VStr (slice line 1)) VUndefined])
           else if is_context line then getAddedLines_loop rest (incr n) acc
           else getAddedLines_loop rest n acc
       end).
    destruct (hunkMatch line); [apply IH |].
    destruct (is_added line); [rewrite IH, <- app_assoc; reflexivity |].
    destruct (is_context line); apply IH.
Qed.

Lemma getDeletedLines_loop_track (lines : list str) (n : num) (acc : list Line.t) :
  getDeletedLines_loop lines n acc = acc ++ track is_removed lines n.
Proof.
  revert n acc. induction lines as [|line rest IH]; intros n acc.
  - simpl. rewrite app_nil_r. reflexivity.
  - rewrite track_cons.
    change (getDeletedLines_loop (line :: rest) n acc) with
      (match hunkMatch line with
       | Some g => getDeletedLines_loop rest (parseInt g) acc
       | None =>
           if is_removed line then
             getDeletedLines_loop rest (incr n)
               (acc ++ [Line.mk n (VStr (slice line 1)) VUndefined])
           else if is_context line then getDeletedLines_loop rest (incr n) acc
           else getDeletedLines_loop rest n acc
       end).
    destruct (hunkMatch line); [apply IH |].
    destruct (is_removed line); [rewrite IH, <- app_assoc; reflexivity |].
    destruct (is_context line); apply IH.
Qed.

Lemma getAddedLines_track (patch : str) :
  getAddedLines patch = track is_added (split patch LF) (Fin 0).
Proof. unfold getAddedLines. apply getAddedLines_loop_track. Qed.

Lemma getDeletedLines_track (patch : str) :
  getDeletedLines patch = track is_removed (split patch LF) (Fin 0).
Proof. unfold getDeletedLines. apply getDeletedLines_loop_track. Qed.

(** ** Computations *)

Lemma bind_Returned {A B : Type} (m : M A) (f : A -> M B) log log' (b : B) :
  bind m f log = (log', Returned b) ->
  exists a log1, m log = (log1, Returned a) /\ f a log1 = (log', Returned b).
Proof.
  unfold bind. destruct (m log) as [log1 [a | e]]; [eauto | discriminate].
Qed.

Lemma forEach_cons {A S : Type} (f : S -> A -> M S) (x : A) (rest : list A) (s : S) :
  forEach f (x :: rest) s = bind (f s x) (fun s' => forEach f rest s').
Proof. reflexivity. Qed.

(** What holds of the folded state before a loop and is kept by each call
    of the callback that returns, holds when the loop returns. *)
Lemma forEach_invariant {A S : Type} (I : S -> Prop) (f : S -> A -> M S)
    (array : list A) :
  (forall s x log log' s',
     x ∈ array -> I s -> f s x log = (log', Returned s') -> I s') ->
  forall s log log' s',
    I s -> forEach f array s log = (log', Returned s') -> I s'.
Proof.
  induction array as [|x rest IH]; intros Hf s log log' s' Hs Hrun.
  - injection Hrun as _ <-. exact Hs.
  - rewrite forEach_cons in Hrun.
    apply bind_Returned in Hrun as (s1 & log1 & H1 & H2).
    eapply IH; [| | exact H2].
    + intros. eapply Hf; [apply list_elem_of_further | |]; eassumption.
    + eapply Hf; [apply list_elem_of_here | |]; eassumption.
Qed.

(** ** Trimming *)

Lemma trimStart_split (s : str) :
  exists w, s = w ++ trimStart s /\ blank w.
Proof.
  induction s as [|c s (w & E & Hw)]; [exists []; split; [reflexivity | constructor] |].
  simpl. destruct (is_space c) eqn:Ec.
  - exists (c :: w). split; [simpl; congruence | constructor; assumption].
  - exists []. split; [reflexivity | constructor].
Qed.

Lemma trim_split (s : str) :
  exists w1 w2, s = w1 ++ trim s ++ w2 /\ blank w1.
Proof.
  destruct (trimStart_split s) as (w1 & E1 & H1).
  destruct (trimStart_split (rev (trimStart s))) as (w2 & E2 & _).
  exists w1, (rev w2). split; [| exact H1].
  unfold trim, trimEnd. rewrite <- rev_app_distr, <- E2, rev_involutive. exact E1.
Qed.

Lemma Star_ws_Matches (w : str) : Matches (Star ws) w <-> blank w.
Proof.
  unfold ws, blank. rewrite Star_Class_Matches. apply Forall_iff. intros c.
  unfold class_mem. simpl. rewrite orb_false_r. reflexivity.
Qed.

Lemma Star_ws_app (w s : str) :
  blank w -> Matches (Star ws) s -> Matches (Star ws) (w ++ s).
Proof.
  rewrite !Star_ws_Matches. intros Hw Hs. apply Forall_app. split; assumption.
Qed.

(** A pattern [/^\s*.../] that finds a match in the trimmed string finds
    one in the string. *)
Lemma test_trim (r : re) (s : str) :
  test (anchored (Cat (Star ws) r)) (trim s) = true ->
  test (anchored (Cat (Star ws) r)) s = true.
Proof.
  rewrite !test_spec. intros (a & m & b & E & Hm & Ha & _).
  rewrite (Ha eq_refl) in E. simpl in E. clear Ha.
  destruct (trim_split s) as (w1 & w2 & Es & Hw).
  inversion Hm as [| |r1 r2 m0 m1 H0 H1| | | |]; subst.
  exists [], ((w1 ++ m0) ++ m1), (b ++ w2). repeat split.
  - rewrite Es at 1. rewrite E. simpl. rewrite <- !app_assoc. reflexivity.
  - constructor; [apply Star_ws_app; assumption | assumption].
  - intros; discriminate.
Qed.

(** ** New functions *)

Lemma check_patterns_Returned (langPatterns : list (string * regex))
    (lineObj : Line.t) (acc acc' : found) log log' :
  check_patterns langPatterns lineObj acc log = (log', Returned acc') ->
  line_adds langPatterns lineObj acc acc'.
Proof.
  induction langPatterns as [|[name rx] rest IH]; simpl.
  - intros [= _ <-]. left. reflexivity.
  - destruct (Line.context lineObj) as [| | b | s] eqn:E;
      try (unfold bind, match_, throw; discriminate).
    unfold bind, match_, not_match, ret. unfold bind, match_, ret.
    assert (Hrest : check_patterns rest lineObj acc log = (log', Returned acc') ->
                    line_adds ((name, rx) :: rest) lineObj acc acc').
    { intros H. destruct (IH H) as [-> | (s' & name' & rx' & ? & ? & ?)];
        [left; reflexivity |].
      right. exists s', name', rx'.
      split; [assumption |]. split; [apply list_elem_of_further |]; assumption. }
    destruct (test rx s) eqn:Hrx; [| exact Hrest].
    destruct (test commonPatterns s) eqn:Hex; simpl; [exact Hrest |].
    intros [= _ <-]. right. exists s, name, rx.
    split; [exact E |]. split; [apply list_elem_of_here |].
    repeat split; assumption.
Qed.

Lemma check_line_Returned (langPatterns : list (string * regex))
    (lineObj : Line.t) (acc acc' : found) log log' :
  check_line langPatterns acc lineObj log = (log', Returned acc') ->
  line_adds langPatterns lineObj acc acc'.
Proof.
  unfold check_line. destruct (test commonPatterns _).
  - intros [= _ <-]. left. reflexivity.
  - apply check_patterns_Returned.
Qed.

Lemma commonPatterns_trim (s : str) :
  test commonPatterns (trim s) = true -> test commonPatterns s = true.
Proof. apply (test_trim _ s). Qed.

(** The loop of [containsNewFunctions] keeps the two arrays of the same
    length, and all it pushes comes from a line that is not excluded. *)
Lemma forEach_check_line (langPatterns : list (string * regex))
    (addedLines : list Line.t) (acc : found) log log' :
  forEach (check_line langPatterns) addedLines ([], []) log = (log', Returned acc) ->
  length acc.1 = length acc.2 /\
  Forall (fun text => test commonPatterns text = false) acc.1 /\
  forall text n, (text, n) ∈ zip acc.1 acc.2 ->
                 reported_from addedLines langPatterns text n.
Proof.
  apply (forEach_invariant
           (fun acc : found =>
              length acc.1 = length acc.2 /\
              Forall (fun text => test commonPatterns text = false) acc.1 /\
              forall text n, (text, n) ∈ zip acc.1 acc.2 ->
                             reported_from addedLines langPatterns text n)).
  - intros s x l l' s' Hx (Hlen & Hex & Hrep) Hrun.
    apply check_line_Returned in Hrun
      as [-> | (t & name & rx & Hc & Hin & Hrx & Hnot & ->)]; [auto |].
    cbn [fst snd]. split; [rewrite !length_app, Hlen; reflexivity |]. split.
    + apply Forall_app. split; [exact Hex |]. constructor; [| constructor].
      destruct (test commonPatterns (trim t)) eqn:Ht; [| reflexivity].
      apply commonPatterns_trim in Ht. congruence.
    + intros text n. rewrite (zip_with_app pair s.1 [trim t] s.2 [Line.lineNumber x] Hlen).
      rewrite elem_of_app. intros [H | H]; [apply Hrep, H |].
      apply list_elem_of_singleton in H. injection H as -> ->.
      exists x, t, name, rx. repeat split; assumption.
  - split; [reflexivity |]. split; [constructor |].
    intros text n H. apply elem_of_nil in H. contradiction.
Qed.

(** ** Test files *)

Lemma demands_Matches (c : N) (r : re) (m : str) :
  demands c r = true -> Matches r m -> c ∈ m.
Proof.
  intros Hd Hm. induction Hm as [|neg items d Hc| r1 r2 s1 s2 _ IH1 _ IH2
                                | r1 r2 s _ IH | r1 r2 s _ IH | | ];
    simpl in Hd; try discriminate.
  - apply andb_true_iff in Hd as [Hneg Hall].
    destruct neg; [discriminate |]. unfold class_mem in Hc. simpl in Hc.
    apply existsb_exists in Hc as (i & Hi & Hmem).
    rewrite forallb_forall in Hall. specialize (Hall i Hi).
    destruct i; try discriminate. simpl in Hmem.
    apply N.eqb_eq in Hall, Hmem. subst. apply list_elem_of_here.
  - apply elem_of_app. apply orb_true_iff in Hd as [H | H]; [left | right]; auto.
  - apply andb_true_iff in Hd as [H _]. auto.
  - apply andb_true_iff in Hd as [_ H]. auto.
Qed.

Lemma test_demands (c : N) (rx : regex) (s : str) :
  demands c (body rx) = true -> test rx s = true -> c ∈ s.
Proof.
  intros Hd Ht. apply test_spec in Ht as (a & m & b & -> & Hm & _).
  rewrite !elem_of_app. right. left. eapply demands_Matches; eassumption.
Qed.

(** A run of literal code units matches itself and nothing else. *)
Lemma chars_Matches (l m : str) : Matches (seq (map chr l)) m <-> m = l.
Proof.
  revert m. induction l as [|x [|y l] IH]; intros m.
  - split; [intros H; inversion H; reflexivity | intros ->; constructor].
  - split.
    + intros H. inversion H as [|neg items c Hc| | | | |]; subst.
      unfold class_mem in Hc. simpl in Hc. rewrite orb_false_r in Hc.
      apply N.eqb_eq in Hc. subst. reflexivity.
    + intros ->. constructor. unfold class_mem. simpl. rewrite N.eqb_refl. reflexivity.
  - change (seq (map chr (x :: y :: l)))
      with (Cat (chr x) (seq (map chr (y :: l)))). split.
    + intros H. inversion H as [| |r1 r2 s1 s2 H1 H2| | | |]; subst.
      apply IH in H2. subst.
      inversion H1 as [|neg items c Hc| | | | |]; subst.
      unfold class_mem in Hc. simpl in Hc. rewrite orb_false_r in Hc.
      apply N.eqb_eq in Hc. subst. reflexivity.
    + intros ->. apply (MCat (chr x) _ [x] (y :: l)); [| apply IH; reflexivity].
      constructor. unfold class_mem. simpl. rewrite N.eqb_refl. reflexivity.
Qed.

(** An unanchored literal pattern is a substring search. *)
Lemma test_lit (text : string) (s : str) :
  test (anywhere (lit text)) s = true <-> occurs (u text) s.
Proof.
  rewrite test_spec. unfold occurs, lit. simpl. split.
  - intros (a & m & b & -> & Hm & _). apply chars_Matches in Hm. subst. eauto.
  - intros (a & b & ->). exists a, (u text), b.
    repeat split; try discriminate. apply chars_Matches. reflexivity.
Qed.

(** [detectLanguage] answers [null] or a string without a dot. *)
Lemma detectLanguage_cases (patch : str) :
  detectLanguage patch = VNull \/
  exists tag, detectLanguage patch = VStr tag /\ (46%N ∉ tag).
Proof.
  unfold detectLanguage. induction (split patch LF) as [|line rest IH].
  - left. reflexivity.
  - rewrite detectLanguage_loop_cons. destruct (is_target_header line); [| exact IH].
    right. destruct (pop_split (target_path line) 46) as (ext & E & Hext & _).
    eauto.
Qed.

(** On a string without a dot, the only test pattern that can match is the
    directory marker. *)
Lemma isTestFile_without_dot (tag : str) :
  46%N ∉ tag -> isTestFile (VStr tag) = test (anywhere (lit "__tests__/")) tag.
Proof.
  intros Hdot.
  assert (Hno : forall rx, demands 46 (body rx) = true -> test rx tag = false).
  { intros rx Hd. destruct (test rx tag) eqn:E; [| reflexivity].
    exfalso. apply Hdot. eapply test_demands; eassumption. }
  unfold isTestFile, testPatterns. cbn [existsb ToString].
  repeat match goal with
         | |- context [test ?rx tag] =>
             rewrite (Hno rx) by reflexivity
         end.
  simpl. rewrite orb_false_r. reflexivity.
Qed.

Lemma not_occurs_without_slash (tag : str) :
  47%N ∉ tag -> ~ occurs (u "__tests__/") tag.
Proof.
  intros Hs (a & b & ->). apply Hs. rewrite !elem_of_app. right. left.
  change (u "__tests__/") with (u "__tests__" ++ [47%N]).
  rewrite elem_of_app. right. apply list_elem_of_here.
Qed.

(** What the record of [analyzeDiff] holds when the call returns. *)
Lemma analyzeDiff_Returned (patch : str) log log' (r : Parsed.t) :
  analyzeDiff patch log = (log', Returned r) ->
  Parsed.addedLines r = getAddedLines patch /\
  Parsed.deletedLines r = getDeletedLines patch /\
  Parsed.filename r = detectLanguage patch /\
  Parsed.isTestFile r = isTestFile (detectLanguage patch) /\
  (isTestFile (detectLanguage patch) = false ->
   Parsed.hasTestChanges r = VBool false).
Proof.
  unfold analyzeDiff. intros H.
  apply bind_Returned in H as (? & log1 & _ & H).
  apply bind_Returned in H as (fns & log2 & _ & H).
  apply bind_Returned in H as (imports & log3 & _ & H).
  apply bind_Returned in H as (tests & log4 & Htests & H).
  injection H as _ <-. simpl. repeat split.
  intros E. rewrite E in Htests. injection Htests as _ <-. reflexivity.
Qed.

(** ** The hunk header: the parser against the pattern *)

Section HunkHeader.

Lemma startsWith_app (p r : str) : startsWith (p ++ r) p = true.
Proof.
  induction p as [|a p IH]; simpl; [destruct r; reflexivity |].
  rewrite N.eqb_refl. exact IH.
Qed.

Lemma startsWith_inv (s p : str) :
  startsWith s p = true -> s = p ++ drop (length p) s.
Proof.
  revert s. induction p as [|a p IH]; intros s H; [reflexivity |].
  destruct s as [|b s]; simpl in H; [discriminate |].
  apply andb_true_iff in H as [Hab H]. apply N.eqb_eq in Hab. subst.
  simpl. f_equal. apply IH, H.
Qed.

Lemma strip_app (p : string) (r : str) : strip p (u p ++ r) = Some r.
Proof.
  unfold strip. rewrite startsWith_app, drop_app_length. reflexivity.
Qed.

Lemma strip_Some (p : string) (s r : str) : strip p s = Some r -> s = u p ++ r.
Proof.
  unfold strip. destruct (startsWith s (u p)) eqn:E; [| discriminate].
  intros [= <-]. apply startsWith_inv, E.
Qed.

Lemma span_digits_app (d rest : str) :
  Forall (fun c => is_digit c = true) d -> stops rest ->
  span_digits (d ++ rest) = (d, rest).
Proof.
  intros Hd Hr. induction Hd as [|c d Hc _ IH]; cbn [span_digits app].
  - destruct rest as [|c rest]; [reflexivity |].
    cbn [span_digits stops] in *. rewrite Hr. reflexivity.
  - rewrite Hc, IH. reflexivity.
Qed.

Lemma span_digits_inv (s d rest : str) :
  span_digits s = (d, rest) ->
  s = d ++ rest /\ Forall (fun c => is_digit c = true) d /\ stops rest.
Proof.
  revert d rest. induction s as [|c s IH]; cbn [span_digits]; intros d rest.
  - intros [= <- <-]. repeat split. constructor.
  - destruct (is_digit c) eqn:Hc.
    + destruct (span_digits s) as [d' rest'] eqn:E. intros [= <- <-].
      destruct (IH d' rest' eq_refl) as (-> & Hd & Hr).
      repeat split; [constructor; assumption | assumption].
    + intros [= <- <-]. repeat split; [constructor | exact Hc].
Qed.

Lemma digits1_app (d rest : str) :
  digits d -> stops rest -> digits1 (d ++ rest) = Some (d, rest).
Proof.
  intros [Hne Hd] Hr. unfold digits1. rewrite (span_digits_app d rest Hd Hr).
  destruct d; [contradiction | reflexivity].
Qed.

Lemma digits1_Some (s d rest : str) :
  digits1 s = Some (d, rest) -> s = d ++ rest /\ digits d /\ stops rest.
Proof.
  unfold digits1. destruct (span_digits s) as [d' rest'] eqn:E.
  apply span_digits_inv in E as (-> & Hd & Hr).
  destruct d' as [|c d']; [discriminate |]. intros [= <- <-].
  repeat split; [discriminate | assumption | assumption].
Qed.

Lemma skip_count_app (c rest : str) :
  count_part c -> stops rest -> rest <> [] -> hd 0%N rest <> 44%N ->
  skip_count (c ++ rest) = rest.
Proof.
  intros [-> | (d & -> & Hd)] Hr Hne Hhd; unfold skip_count.
  - destruct rest as [|x rest]; [contradiction |]. simpl in Hhd.
    assert (E : strip "," (x :: rest) = None).
    { unfold strip.
      change (startsWith (x :: rest) (u ","))
        with ((44 =? x)%N && startsWith rest []).
      destruct (N.eqb_spec 44 x); [congruence | reflexivity]. }
    cbn [app]. rewrite E. reflexivity.
  - change ((44%N :: d) ++ rest) with (u "," ++ d ++ rest).
    rewrite strip_app. simpl. rewrite (digits1_app d rest Hd Hr). reflexivity.
Qed.

Lemma skip_count_inv (s : str) :
  exists c, s = c ++ skip_count s /\ count_part c.
Proof.
  unfold skip_count. destruct (strip "," s) as [s'|] eqn:E; simpl.
  - destruct (digits1 s') as [[d rest]|] eqn:Ed.
    + apply strip_Some in E. apply digits1_Some in Ed as (-> & Hd & _).
      exists (44%N :: d). split; [exact E | right; eauto].
    + exists []. split; [reflexivity | left; reflexivity].
  - exists []. split; [reflexivity | left; reflexivity].
Qed.

Lemma Star_dg_Matches (d : str) :
  Matches (Star dg) d <-> Forall (fun c => is_digit c = true) d.
Proof.
  unfold dg. rewrite Star_Class_Matches. apply Forall_iff. intros c.
  unfold class_mem. simpl. rewrite orb_false_r. reflexivity.
Qed.

Lemma plus_dg_Matches (d : str) : Matches (plus dg) d <-> digits d.
Proof.
  unfold plus, digits. split.
  - intros H. invert H.
    match goal with H : Matches dg _ |- _ => invert H end.
    match goal with H : Matches (Star dg) _ |- _ => apply Star_dg_Matches in H end.
    split; [discriminate |]. constructor; [| assumption].
    match goal with H : class_mem _ _ _ = true |- _ =>
      unfold class_mem in H; simpl in H; rewrite orb_false_r in H; exact H end.
  - intros [Hne Hd]. destruct d as [|c d]; [contradiction |]. invert Hd.
    apply (MCat dg (Star dg) [c] d); [| apply Star_dg_Matches; assumption].
    constructor. unfold class_mem. simpl.
    match goal with H : is_digit c = true |- _ => rewrite H end. reflexivity.
Qed.

Lemma count_Matches (c : str) :
  Matches (opt (Cat (lit ",") (plus dg))) c <-> count_part c.
Proof.
  unfold opt, count_part. split.
  - intros H. invert H.
    + match goal with H : Matches (Cat _ _) _ |- _ => invert H end.
      match goal with H : Matches (lit ",") _ |- _ =>
        apply (chars_Matches (u ",")) in H; subst end.
      right. eexists. split; [reflexivity |]. apply plus_dg_Matches. assumption.
    + match goal with H : Matches Eps _ |- _ => invert H end. left. reflexivity.
  - intros [-> | (d & -> & Hd)]; [apply MAltR; constructor |].
    apply MAltL. apply (MCat _ _ (u ",") d);
      [apply (chars_Matches (u ",")); reflexivity | apply plus_dg_Matches, Hd].
Qed.

(** The words of the pattern of the hunk header. *)
Lemma hunk_header_words (m : str) :
  Matches (body hunk_header) m <->
  exists d1 c1 g c2,
    m = u "@@ -" ++ d1 ++ c1 ++ u " +" ++ g ++ c2 ++ u " @@" /\
    digits d1 /\ count_part c1 /\ digits g /\ count_part c2.
Proof.
  change (body hunk_header) with
    (Cat (lit "@@ -") (Cat (plus dg) (Cat (opt (Cat (lit ",") (plus dg)))
      (Cat (lit " +") (Cat (plus dg) (Cat (opt (Cat (lit ",") (plus dg)))
        (lit " @@"))))))).
  split.
  - intros H.
    repeat match goal with
           | H : Matches (Cat _ _) _ |- _ => invert H
           end.
    repeat match goal with
           | H : Matches (lit ?t) _ |- _ => apply (chars_Matches (u t)) in H; subst
           | H : Matches (plus dg) _ |- _ => apply plus_dg_Matches in H
           | H : Matches (opt _) _ |- _ => apply count_Matches in H
           end.
    eexists _, _, _, _. split; [reflexivity |]. auto.
  - intros (d1 & c1 & g & c2 & -> & Hd1 & Hc1 & Hg & Hc2).
    repeat (constructor;
            [first [apply (chars_Matches (u "@@ -")); reflexivity
                   | apply (chars_Matches (u " +")); reflexivity
                   | apply plus_dg_Matches; assumption
                   | apply count_Matches; assumption] |]).
    apply (chars_Matches (u " @@")). reflexivity.
Qed.

Lemma stops_count (c rest : str) : count_part c -> stops (c ++ 32%N :: rest).
Proof. intros [-> | (d & -> & _)]; reflexivity. Qed.

(** [hunkMatch] finds a match exactly when the pattern of the source does,
    and its group is the run of digits after [+]. *)
Lemma hunkMatch_Some (line g : str) :
  hunkMatch line = Some g <->
  exists d1 c1 c2 rest,
    line = u "@@ -" ++ d1 ++ c1 ++ u " +" ++ g ++ c2 ++ u " @@" ++ rest /\
    digits d1 /\ count_part c1 /\ digits g /\ count_part c2.
Proof.
  unfold hunkMatch. split.
  - destruct (strip "@@ -" line) as [s1|] eqn:E1; [| discriminate]. simpl.
    destruct (digits1 s1) as [[d1 s2]|] eqn:E2; [| discriminate]. simpl.
    destruct (skip_count_inv s2) as (c1 & Ec1 & Hc1).
    destruct (strip " +" (skip_count s2)) as [s3|] eqn:E3; [| discriminate]. simpl.
    destruct (digits1 s3) as [[g' s4]|] eqn:E4; [| discriminate]. simpl.
    destruct (skip_count_inv s4) as (c2 & Ec2 & Hc2).
    destruct (strip " @@" (skip_count s4)) as [s5|] eqn:E5; [| discriminate]. simpl.
    intros [= <-].
    apply strip_Some in E1, E3, E5.
    apply digits1_Some in E2 as (-> & Hd1 & _), E4 as (-> & Hg & _).
    exists d1, c1, c2, s5. rewrite E5 in Ec2. rewrite E3 in Ec1.
    rewrite Ec2 in Ec1. rewrite Ec1 in E1. split; [exact E1 | auto].
  - intros (d1 & c1 & c2 & rest & -> & Hd1 & Hc1 & Hg & Hc2).
    rewrite strip_app. cbn [mbind option_bind].
    rewrite (digits1_app d1 _ Hd1) by (apply (stops_count c1), Hc1).
    cbn [mbind option_bind].
    rewrite (skip_count_app c1 _ Hc1) by (simpl; first [reflexivity | discriminate]).
    rewrite strip_app. cbn [mbind option_bind].
    rewrite (digits1_app g _ Hg) by (apply (stops_count c2), Hc2).
    cbn [mbind option_bind].
    rewrite (skip_count_app c2 _ Hc2) by (simpl; first [reflexivity | discriminate]).
    rewrite strip_app. reflexivity.
Qed.

Lemma hunkMatch_test (line : str) :
  is_Some (hunkMatch line) <-> test hunk_header line = true.
Proof.
  rewrite test_spec. split.
  - intros [g Hg]. apply hunkMatch_Some in Hg
      as (d1 & c1 & c2 & rest & -> & Hd1 & Hc1 & Hg & Hc2).
    exists [], (u "@@ -" ++ d1 ++ c1 ++ u " +" ++ g ++ c2 ++ u " @@"), rest.
    repeat split; try discriminate.
    + rewrite app_nil_l, <- !app_assoc. reflexivity.
    + apply hunk_header_words. eexists _, _, _, _. split; [reflexivity |]. auto.
  - intros (a & m & b & -> & Hm & Ha & _). rewrite (Ha eq_refl), app_nil_l.
    apply hunk_header_words in Hm as (d1 & c1 & g & c2 & -> & Hd1 & Hc1 & Hg & Hc2).
    exists g. apply hunkMatch_Some. exists d1, c1, c2, b.
    split; [| auto]. rewrite <- !app_assoc. reflexivity.
Qed.

End HunkHeader.

(** ** When the analyzer returns *)

Lemma track_context (marked : str -> bool) (lines : list str) (n : num) :
  Forall (fun o => Line.context o = VUndefined) (track marked lines n).
Proof.
  revert n. induction lines as [|line rest IH]; intros n; [constructor |].
  rewrite track_cons. destruct (hunkMatch line); [apply IH |].
  destruct (marked line); [constructor; [reflexivity | apply IH] |].
  destruct (is_context line); apply IH.
Qed.

(** A line object without [context] passes a loop that has no pattern to
    try, and stops the loop that has one. *)
Lemma forEach_check_line_nil (addedLines : list Line.t) (acc : found) log :
  Forall (fun o => Line.context o = VUndefined) addedLines ->
  forEach (check_line []) addedLines acc log = (log, Returned acc).
Proof.
  induction 1 as [|o rest Ho _ IH]; [reflexivity |].
  rewrite forEach_cons. unfold bind, check_line at 1. rewrite Ho. exact IH.
Qed.

Lemma forEach_check_line_throws (p : string * regex) (ps : list (string * regex))
    (o : Line.t) (rest : list Line.t) (acc : found) log :
  Line.context o = VUndefined ->
  forEach (check_line (p :: ps)) (o :: rest) acc log = (log, Thrown TypeError).
Proof.
  intros Ho. rewrite forEach_cons. unfold bind, check_line at 1. rewrite Ho.
  replace (test commonPatterns (ToString VUndefined)) with false
    by (vm_compute; reflexivity).
  destruct p as [name rx]. cbn [check_patterns]. rewrite Ho. reflexivity.
Qed.

Lemma forEach_check_import_undefined (language : value) (rx : regex)
    (addedLines : list Line.t) (acc : list value) log :
  import_patterns !! ToString language = Some rx ->
  test rx (u "undefined") = false ->
  Forall (fun o => Line.context o = VUndefined) addedLines ->
  forEach (check_import language) addedLines acc log = (log, Returned acc).
Proof.
  intros Hrx Hno. induction 1 as [|o rest Ho _ IH]; [reflexivity |].
  rewrite forEach_cons. unfold bind, check_import at 1.
  rewrite Hrx, Ho. change (ToString VUndefined) with (u "undefined").
  rewrite Hno. exact IH.
Qed.

Lemma forEach_check_import_throws (language : value) (o : Line.t)
    (rest : list Line.t) (acc : list value) log :
  import_patterns !! ToString language = None ->
  forEach (check_import language) (o :: rest) acc log = (log, Thrown TypeError).
Proof.
  intros Hno. rewrite forEach_cons. unfold bind, check_import at 1.
  rewrite Hno. reflexivity.
Qed.

(** The languages that have an import pattern, and what the pattern makes
    of the text of [undefined]. *)
Lemma import_patterns_Some (key : str) (rx : regex) :
  import_patterns !! key = Some rx ->
  key ∈ [u "js"; u "ts"; u "py"; u "java"; u "go"; u "rust"; u "ruby"] /\
  test rx (u "undefined") = false.
Proof.
  intros H. apply elem_of_list_to_map_2 in H.
  repeat (apply elem_of_cons in H as [[= -> ->] | H];
          [split; [| vm_compute; reflexivity];
           repeat first [apply list_elem_of_here | apply list_elem_of_further] |]).
  apply elem_of_nil in H. contradiction.
Qed.

Lemma containsNewFunctions_without_context (addedLines : list Line.t)
    (language : value) log :
  Forall (fun o => Line.context o = VUndefined) addedLines ->
  addedLines <> [] ->
  (exists log' r, containsNewFunctions addedLines language log = (log', Returned r))
  <-> patterns_get language = None \/ patterns_get language = Some [].
Proof.
  intros Hctx Hne. unfold containsNewFunctions.
  destruct (patterns_get language) as [[|p ps]|].
  - unfold bind. rewrite (forEach_check_line_nil _ _ _ Hctx). split; eauto.
  - destruct addedLines as [|o rest]; [contradiction |].
    inversion Hctx as [|? ? Ho _]; subst.
    unfold bind. rewrite (forEach_check_line_throws _ _ _ _ _ _ Ho). split.
    + intros (? & ? & ?). discriminate.
    + intros [? | ?]; discriminate.
  - split; [auto |]. intros _. eexists _, _. reflexivity.
Qed.

Lemma containsImports_without_context (addedLines : list Line.t)
    (language : value) log :
  Forall (fun o => Line.context o = VUndefined) addedLines ->
  addedLines <> [] ->
  (exists log' r, containsImports addedLines language log = (log', Returned r))
  <-> ToString language ∈ [u "js"; u "ts"; u "py"; u "java"; u "go";
                           u "rust"; u "ruby"].
Proof.
  intros Hctx Hne. unfold containsImports.
  destruct (import_patterns !! ToString language) as [rx|] eqn:E.
  - destruct (import_patterns_Some _ _ E) as [Hin Hno].
    rewrite (forEach_check_import_undefined _ rx _ _ _ E Hno Hctx). split; eauto.
  - destruct addedLines as [|o rest]; [contradiction |].
    rewrite (forEach_check_import_throws _ _ _ _ _ E). split.
    + intros (? & ? & ?). discriminate.
    + intros Hin. exfalso.
      repeat (apply elem_of_cons in Hin as [Hin | Hin];
              [rewrite Hin in E; vm_compute in E; discriminate |]).
      apply elem_of_nil in Hin. exact Hin.
Qed.

(** [analyzeDiff] returns on the patches without an added line, and on the
    patches of the three languages that have an import pattern and no
    function patterns; on any other patch it throws. *)
Lemma analyzeDiff_returns_iff (patch : str) log :
  (exists log' r, analyzeDiff patch log = (log', Returned r)) <->
  getAddedLines patch = [] \/
  ToString (detectLanguage patch) ∈ [u "ts"; u "rust"; u "ruby"].
Proof.
  pose proof (track_context is_added (split patch LF) (Fin 0)) as Hctx.
  rewrite <- getAddedLines_track in Hctx.
  destruct (getAddedLines patch) as [|o rest] eqn:Eadd.
  - split; [auto |]. intros _. unfold analyzeDiff. rewrite Eadd.
    unfold containsNewFunctions, containsImports, hasTestChanges, bind,
      logger_info, logger_warn, ret. simpl forEach. unfold ret.
    destruct (patterns_get (detectLanguage patch));
      destruct (isTestFile (detectLanguage patch)); eexists _, _; reflexivity.
  - assert (Hne : o :: rest <> []) by discriminate.
    pose proof (containsNewFunctions_without_context
                  (o :: rest) (detectLanguage patch)) as Hfn.
    pose proof (containsImports_without_context
                  (o :: rest) (detectLanguage patch)) as Himp.
    assert (Hkeys : (patterns_get (detectLanguage patch) = None \/
                     patterns_get (detectLanguage patch) = Some []) /\
                    ToString (detectLanguage patch)
                      ∈ [u "js"; u "ts"; u "py"; u "java"; u "go"; u "rust"; u "ruby"]
                    <-> ToString (detectLanguage patch) ∈ [u "ts"; u "rust"; u "ruby"]).
    { unfold patterns_get. split.
      - intros [Hp Hin].
        repeat (apply elem_of_cons in Hin as [Hin | Hin];
                [rewrite Hin in *; vm_compute in Hp;
                 first [ destruct Hp; discriminate
                       | repeat first [apply list_elem_of_here
                                      | apply list_elem_of_further] ] |]).
        apply elem_of_nil in Hin. contradiction.
      - intros Hin.
        repeat (apply elem_of_cons in Hin as [Hin | Hin];
                [rewrite Hin; split;
                 [left; vm_compute; reflexivity
                 | repeat first [apply list_elem_of_here
                                | apply list_elem_of_further] ] |]).
        apply elem_of_nil in Hin. contradiction. }
    rewrite <- Hkeys. unfold analyzeDiff. rewrite Eadd. split.
    + intros (log' & r & H).
      apply bind_Returned in H as (? & log1 & _ & H).
      apply bind_Returned in H as (fns & log2 & H2 & H).
      apply bind_Returned in H as (imports & log3 & H3 & H).
      right. split.
      * apply (Hfn log1 Hctx Hne). eauto.
      * apply (Himp log2 Hctx Hne). eauto.
    + intros [? | [Hp Hin]]; [discriminate |].
      assert (Htest : isTestFile (detectLanguage patch) = false).
      { destruct (detectLanguage patch) as [| | [|] | tag]; cbn [ToString] in Hin;
          repeat (apply elem_of_cons in Hin as [Hin | Hin];
                  [first [ vm_compute in Hin; discriminate Hin
                         | rewrite Hin; vm_compute; reflexivity ] |]);
          apply elem_of_nil in Hin; contradiction. }
      unfold bind at 1. unfold logger_info.
      destruct (proj2 (Hfn (log ++ [(info, u "Analyzing diff")]) Hctx Hne) Hp)
        as (log1 & fns & E1).
      unfold bind at 1. rewrite E1.
      destruct (proj2 (Himp log1 Hctx Hne) Hin) as (log2 & imports & E2).
      unfold bind at 1. rewrite E2. rewrite Htest.
      eexists _, _. reflexivity.
Qed.

(** ** The exclusion pattern *)

Section Exclusion.

Local Ltac find_alt :=
  first [ solve [unfold lit; apply (proj2 (chars_Matches _ _)); reflexivity]
        | solve [apply MAltL; find_alt]
        | apply MAltR; find_alt ].

(** The words of the exclusion pattern: blanks, a keyword, blanks, and an
    opening parenthesis. *)
Lemma commonPatterns_words (m : str) :
  Matches (body commonPatterns) m <->
  exists a k b, m = a ++ k ++ b ++ [40%N] /\
                blank a /\ k ∈ control_keywords /\ blank b.
Proof.
  change (body commonPatterns) with
    (Cat (Star ws)
       (Cat (Alt (lit "for") (Alt (lit "while") (Alt (lit "if")
               (Alt (lit "else") (Alt (lit "switch") (lit "catch"))))))
          (Cat (Star ws) (lit "(")))).
  split.
  - intros H.
    repeat match goal with
           | H : Matches (Cat _ _) _ |- _ => invert H
           end.
    repeat match goal with
           | H : Matches (Star ws) _ |- _ => apply Star_ws_Matches in H
           | H : Matches (lit "(") _ |- _ => apply (chars_Matches (u "(")) in H; subst
           end.
    eexists _, _, _. split; [reflexivity |]. split; [assumption |].
    split; [| assumption].
    repeat match goal with
           | H : Matches (Alt _ _) _ |- _ => invert H
           end;
      match goal with
      | H : Matches (lit ?t) _ |- _ => apply (chars_Matches (u t)) in H; subst
      end;
      unfold control_keywords; cbn [map];
      repeat first [apply list_elem_of_here | apply list_elem_of_further].
  - intros (a & k & b & -> & Ha & Hk & Hb).
    constructor; [apply Star_ws_Matches, Ha |].
    constructor; [| constructor;
                    [apply Star_ws_Matches, Hb
                    | apply (chars_Matches (u "(")); reflexivity]].
    unfold control_keywords in Hk. cbn [map] in Hk.
    repeat (apply elem_of_cons in Hk as [-> | Hk]; [solve [find_alt] |]).
    apply elem_of_nil in Hk. contradiction.
Qed.

Lemma trimStart_stop (x y : str) (c : N) :
  is_space c = false -> trimStart (x ++ c :: y) = trimStart x ++ c :: y.
Proof.
  intros Hc. induction x as [|d x IH]; cbn [trimStart app].
  - rewrite Hc. reflexivity.
  - destruct (is_space d); [exact IH | reflexivity].
Qed.

Lemma trimStart_blank (a : str) : blank a -> trimStart a = [].
Proof.
  induction 1 as [|c a Hc _ IH]; cbn [trimStart]; [reflexivity |].
  rewrite Hc. exact IH.
Qed.

Lemma trimEnd_stop (p r : str) (c : N) :
  is_space c = false -> trimEnd (p ++ c :: r) = p ++ c :: trimEnd r.
Proof.
  intros Hc. unfold trimEnd.
  rewrite rev_app_distr. cbn [rev]. rewrite <- app_assoc. cbn [app].
  rewrite (trimStart_stop _ _ _ Hc), rev_app_distr. cbn [rev].
  rewrite rev_involutive, <- app_assoc. reflexivity.
Qed.

Lemma keyword_head (k : str) :
  k ∈ control_keywords -> exists c k', k = c :: k' /\ is_space c = false.
Proof.
  unfold control_keywords. cbn [map]. intros Hk.
  repeat (apply elem_of_cons in Hk as [-> | Hk];
          [eexists _, _; split; [reflexivity | vm_compute; reflexivity] |]).
  apply elem_of_nil in Hk. contradiction.
Qed.

(** The exclusion pattern makes the same of a text and of the text trimmed. *)
Lemma commonPatterns_trim_eq (s : str) :
  test commonPatterns (trim s) = test commonPatterns s.
Proof.
  destruct (test commonPatterns s) eqn:E.
  - apply test_spec in E as (a0 & m & rest & -> & Hm & Ha0 & _).
    rewrite (Ha0 eq_refl), app_nil_l.
    apply commonPatterns_words in Hm as (a & k & b & -> & Ha & Hk & Hb).
    destruct (keyword_head k Hk) as (c & k' & -> & Hc).
    assert (Et : trim ((a ++ (c :: k') ++ b ++ [40%N]) ++ rest)
                 = ((c :: k') ++ b) ++ 40%N :: trimEnd rest).
    { replace ((a ++ (c :: k') ++ b ++ [40%N]) ++ rest)
        with (a ++ c :: (k' ++ b ++ 40%N :: rest))
        by (rewrite <- !app_assoc; reflexivity).
      unfold trim.
      rewrite (trimStart_stop a _ c Hc), (trimStart_blank a Ha), app_nil_l.
      replace (c :: k' ++ b ++ 40%N :: rest)
        with (((c :: k') ++ b) ++ 40%N :: rest)
        by (rewrite <- app_assoc; reflexivity).
      apply trimEnd_stop. reflexivity. }
    rewrite Et. apply test_spec.
    exists [], ([] ++ (c :: k') ++ b ++ [40%N]), (trimEnd rest).
    repeat split; try discriminate.
    + rewrite !app_nil_l, <- !app_assoc. reflexivity.
    + apply commonPatterns_words. exists [], (c :: k'), b.
      repeat split; [constructor | assumption | assumption].
  - destruct (test commonPatterns (trim s)) eqn:Et; [| reflexivity].
    apply commonPatterns_trim in Et. congruence.
Qed.

End Exclusion.

(** * Lemmas of the further properties *)

(** ** Headers and marked lines *)

Lemma hunkMatch_unmarked (line g : str) :
  hunkMatch line = Some g ->
  is_added line = false /\ is_removed line = false /\ is_context line = false.
Proof.
  intros H. apply hunkMatch_Some in H as (d1 & c1 & c2 & rest & -> & _).
  repeat split; reflexivity.
Qed.

Lemma is_added_no_header (line : str) : is_added line = true -> hunkMatch line = None.
Proof.
  intros H. destruct (hunkMatch line) as [g|] eqn:E; [| reflexivity].
  apply hunkMatch_unmarked in E as (E & _). congruence.
Qed.

Lemma is_removed_no_header (line : str) :
  is_removed line = true -> hunkMatch line = None.
Proof.
  intros H. destruct (hunkMatch line) as [g|] eqn:E; [| reflexivity].
  apply hunkMatch_unmarked in E as (_ & E & _). congruence.
Qed.

Section MarkedLines.

Variable marked : str -> bool.
Hypothesis marked_no_header : forall line, marked line = true -> hunkMatch line = None.

Lemma header_unmarked (line g : str) : hunkMatch line = Some g -> marked line = false.
Proof.
  intros H. destruct (marked line) eqn:E; [| reflexivity].
  apply marked_no_header in E. congruence.
Qed.

(** One record for each marked line, in order, whatever the headers. *)
Lemma track_contents_all (lines : list str) (n : num) :
  map Line.content (track marked lines n) =
    map (fun l => VStr (slice l 1)) (List.filter marked lines).
Proof.
  revert n. induction lines as [|line rest IH]; intros n; [reflexivity |].
  rewrite track_cons. cbn [List.filter].
  destruct (hunkMatch line) as [g|] eqn:E.
  - rewrite (header_unmarked line g E). apply IH.
  - destruct (marked line); cbn [map]; [rewrite IH; reflexivity |].
    destruct (is_context line); apply IH.
Qed.

(** A marked line after a run of lines without a header is numbered by the
    lines of the run that moved the counter on. *)
Lemma track_number_after (pre : list str) (line : str) (post : list str) (n : num) :
  Forall (fun l => hunkMatch l = None) pre ->
  marked line = true ->
  Line.mk (Nat.iter (length (List.filter (fun l => marked l || is_context l) pre))
                    incr n)
          (VStr (slice line 1)) VUndefined
    ∈ track marked (pre ++ line :: post) n.
Proof.
  intros H Hm. revert n. induction H as [|l pre Hl _ IH]; intros n.
  - change ([] ++ line :: post) with (line :: post).
    rewrite track_cons, (marked_no_header line Hm), Hm. apply list_elem_of_here.
  - change ((l :: pre) ++ line :: post) with (l :: pre ++ line :: post).
    rewrite track_cons, Hl.
    simpl List.filter. destruct (marked l); cbn [orb length].
    + rewrite Nat.iter_succ_r. apply list_elem_of_further, IH.
    + destruct (is_context l); cbn [length].
      * rewrite Nat.iter_succ_r. apply IH.
      * apply IH.
Qed.

End MarkedLines.

(** Below 2^53 the counter counts. *)
Lemma iter_incr_small (v : N) (k : nat) :
  (v + N.of_nat k < 2 ^ 53)%N ->
  Nat.iter k incr (round53 v) = Fin (v + N.of_nat k).
Proof.
  induction k as [|k IH].
  - rewrite N.add_0_r. intros H. change (Nat.iter 0 incr (round53 v)) with (round53 v).
    unfold round53.
    destruct (N.ltb_spec v (2 ^ 53)); [reflexivity | lia].
  - rewrite Nat2N.inj_succ, N.add_succ_r, <- N.add_1_r. intros H.
    rewrite Nat.iter_succ, IH by lia. cbn [incr]. unfold round53.
    destruct (N.ltb_spec (v + N.of_nat k + 1) (2 ^ 53)); [reflexivity | lia].
Qed.

(** ** The function matcher, line by line *)

Lemma check_patterns_string (langPatterns : list (string * regex))
    (lineObj : Line.t) (acc : found) (s : str) log :
  Line.context lineObj = VStr s ->
  test commonPatterns s = false ->
  check_patterns langPatterns lineObj acc log =
    (log, Returned (if existsb (fun p => test p.2 s) langPatterns
                    then (acc.1 ++ [trim s], acc.2 ++ [Line.lineNumber lineObj])
                    else acc)).
Proof.
  intros Hctx Hex. induction langPatterns as [|[name rx] rest IH]; [reflexivity |].
  cbn [check_patterns existsb snd]. rewrite Hctx.
  unfold bind, match_, not_match, ret. unfold bind, match_, ret.
  destruct (test rx s); cbn [orb].
  - rewrite Hex. reflexivity.
  - exact IH.
Qed.

Lemma commonPatterns_not_a_string (v : value) :
  is_string v = false -> test commonPatterns (ToString v) = false.
Proof. destruct v as [| | [|] |s]; intros H; try discriminate; reflexivity. Qed.

Lemma check_line_eq (langPatterns : list (string * regex)) (acc : found)
    (lineObj : Line.t) log :
  check_line langPatterns acc lineObj log =
    (log,
     if nothing_to_try langPatterns || is_string (Line.context lineObj) then
       Returned (if function_line langPatterns lineObj
                 then (acc.1 ++ [trim (ToString (Line.context lineObj))],
                       acc.2 ++ [Line.lineNumber lineObj])
                 else acc)
     else Thrown TypeError).
Proof.
  unfold check_line, function_line, function_text.
  destruct (Line.context lineObj) as [| | b | s] eqn:E.
  1-3: rewrite commonPatterns_not_a_string by reflexivity;
       destruct langPatterns as [|[name rx] rest]; [reflexivity |];
       cbn [check_patterns]; rewrite E; reflexivity.
  cbn [ToString is_string]. rewrite orb_true_r.
  destruct (test commonPatterns s) eqn:Hex; [reflexivity |].
  rewrite (check_patterns_string _ _ _ s _ E Hex). reflexivity.
Qed.

Lemma forEach_check_line_eq (langPatterns : list (string * regex))
    (addedLines : list Line.t) (acc : found) log :
  forEach (check_line langPatterns) addedLines acc log =
    (log,
     if nothing_to_try langPatterns
        || forallb (fun o => is_string (Line.context o)) addedLines then
       Returned (acc.1 ++ reported_texts (function_lines langPatterns addedLines),
                 acc.2 ++ numbers (function_lines langPatterns addedLines))
     else Thrown TypeError).
Proof.
  revert acc. induction addedLines as [|o rest IH]; intros acc.
  - cbn. rewrite orb_true_r, !app_nil_r. destruct acc. reflexivity.
  - rewrite forEach_cons. unfold bind. rewrite check_line_eq.
    unfold function_lines. cbn [forallb List.filter].
    destruct (nothing_to_try langPatterns) eqn:Hn; cbn [orb].
    + rewrite IH. try rewrite Hn. cbn [orb]. unfold function_lines.
      destruct (function_line langPatterns o); cbn [fst snd];
        [| reflexivity].
      unfold reported_texts, numbers. cbn [map].
      rewrite <- !app_assoc. reflexivity.
    + destruct (is_string (Line.context o)); cbn [andb]; [| reflexivity].
      rewrite IH. try rewrite Hn. cbn [orb]. unfold function_lines.
      destruct (forallb _ rest); [| reflexivity].
      destruct (function_line langPatterns o); cbn [fst snd];
        [| reflexivity].
      unfold reported_texts, numbers. cbn [map].
      rewrite <- !app_assoc. reflexivity.
Qed.

(** ** The tables *)

Lemma patterns_get_None (language : value) :
  ToString language ∉ function_languages ++ Object_prototype ->
  patterns_get language = None.
Proof.
  intros H. rewrite not_elem_of_app in H. destruct H as [Hf Ho].
  unfold patterns_get, patterns.
  rewrite (not_elem_of_list_to_map_1 _ (ToString language)) by exact Hf.
  rewrite bool_decide_eq_false_2 by exact Ho. reflexivity.
Qed.

Lemma patterns_get_inherited (language : value) :
  ToString language ∈ Object_prototype -> patterns_get language = Some [].
Proof.
  unfold patterns_get, Object_prototype. cbn [map]. intros H.
  repeat (apply elem_of_cons in H as [H | H];
          [rewrite H; vm_compute; reflexivity |]).
  apply elem_of_nil in H. contradiction.
Qed.

Lemma patterns_get_function_language (language : value) :
  ToString language ∈ function_languages ->
  exists p ps, patterns_get language = Some (p :: ps).
Proof.
  unfold patterns_get, function_languages. cbn [map]. intros H.
  repeat (apply elem_of_cons in H as [H | H];
          [rewrite H; vm_compute; eexists _, _; reflexivity |]).
  apply elem_of_nil in H. contradiction.
Qed.

Lemma import_patterns_None (key : str) :
  key ∉ import_languages -> import_patterns !! key = None.
Proof. intros H. apply not_elem_of_list_to_map_1. exact H. Qed.

Lemma import_patterns_language (key : str) :
  key ∈ import_languages -> exists rx, import_patterns !! key = Some rx.
Proof.
  unfold import_languages. cbn [map]. intros H.
  repeat (apply elem_of_cons in H as [-> | H];
          [vm_compute; eexists; reflexivity |]).
  apply elem_of_nil in H. contradiction.
Qed.

Lemma forEach_check_import_eq (language : value) (rx : regex)
    (addedLines : list Line.t) (acc : list value) log :
  import_patterns !! ToString language = Some rx ->
  forEach (check_import language) addedLines acc log =
    (log, Returned (acc ++ import_lines rx addedLines)).
Proof.
  intros Hrx. revert acc. induction addedLines as [|o rest IH]; intros acc.
  - cbn. rewrite app_nil_r. reflexivity.
  - rewrite forEach_cons. unfold bind, check_import at 1. rewrite Hrx.
    unfold import_lines. cbn [map List.filter].
    destruct (test rx (ToString (Line.context o))); unfold ret; rewrite IH;
      [rewrite <- app_assoc |]; reflexivity.
Qed.

(** ** The file-name patterns *)

Lemma test_at_end_lit (text : string) (s : str) :
  test (at_end (lit text)) s = true <-> ends_with (u text) s.
Proof.
  rewrite test_spec. unfold ends_with, lit. cbn [bol eol body at_end]. split.
  - intros (a & m & b & -> & Hm & _ & Hb). apply chars_Matches in Hm. subst.
    rewrite (Hb eq_refl), app_nil_r. eauto.
  - intros (a & ->). exists a, (u text), [].
    rewrite app_nil_r. repeat split; try discriminate.
    apply chars_Matches. reflexivity.
Qed.

Lemma Star_dot_Matches (x : str) : Matches (Star dot) x <-> one_line x.
Proof.
  unfold dot, one_line. rewrite Star_Class_Matches. apply Forall_iff. intros c.
  unfold class_mem, is_line_terminator. cbn [existsb item_mem].
  destruct (c =? 10)%N, (c =? 13)%N, (c =? 8232)%N, (c =? 8233)%N; cbn;
    split; congruence.
Qed.

Lemma test_py_prefix (s : str) :
  test (at_end (seq [lit "test_"; Star dot; lit ".py"])) s = true <->
  exists a x, s = a ++ u "test_" ++ x ++ u ".py" /\ one_line x.
Proof.
  rewrite test_spec.
  change (body (at_end (seq [lit "test_"; Star dot; lit ".py"])))
    with (Cat (lit "test_") (Cat (Star dot) (lit ".py"))).
  cbn [bol eol at_end]. split.
  - intros (a & m & b & -> & Hm & _ & Hb). rewrite (Hb eq_refl), app_nil_r.
    invert Hm.
    match goal with H : Matches (Cat _ _) _ |- _ => invert H end.
    repeat match goal with
           | H : Matches (lit ?t) _ |- _ => apply (chars_Matches (u t)) in H; subst
           | H : Matches (Star dot) _ |- _ => apply Star_dot_Matches in H
           end.
    eauto.
  - intros (a & x & -> & Hx). exists a, (u "test_" ++ x ++ u ".py"), [].
    rewrite app_nil_r. repeat split; try discriminate.
    constructor; [apply (chars_Matches (u "test_")); reflexivity |].
    constructor; [apply Star_dot_Matches, Hx
                 | apply (chars_Matches (u ".py")); reflexivity].
Qed.

Lemma test_py_suffix (s : str) :
  test (at_end (seq [Star dot; lit "_test.py"])) s = true ->
  occurs (u "_test.") s.
Proof.
  rewrite test_spec.
  change (body (at_end (seq [Star dot; lit "_test.py"])))
    with (Cat (Star dot) (lit "_test.py")).
  intros (a & m & b & -> & Hm & _). invert Hm.
  match goal with
    H : Matches (lit "_test.py") _ |- _ =>
      apply (chars_Matches (u "_test.py")) in H; subst
  end.
  match goal with
    |- occurs _ (a ++ (?x ++ _) ++ b) => exists (a ++ x), (u "py" ++ b)
  end.
  change (u "_test.py") with (u "_test." ++ u "py").
  rewrite <- !app_assoc. reflexivity.
Qed.

Lemma forallb_true_Forall {A} (f : A -> bool) (l : list A) :
  forallb f l = true <-> Forall (fun x => f x = true) l.
Proof.
  induction l as [|x l IH]; cbn [forallb].
  - split; [constructor | reflexivity].
  - rewrite andb_true_iff, IH. split.
    + intros [Hx Hl]. constructor; assumption.
    + intros H. invert H. split; assumption.
Qed.

Lemma forallb_false_Exists {A} (f : A -> bool) (l : list A) :
  forallb f l = false <-> Exists (fun x => f x = false) l.
Proof.
  induction l as [|x l IH]; cbn [forallb].
  - split; [discriminate | intros H; invert H].
  - rewrite andb_false_iff, IH. split.
    + intros [Hx | Hl]; [apply Exists_cons_hd | apply Exists_cons_tl]; assumption.
    + intros H. invert H; [left | right]; assumption.
Qed.

(** ** The analyzer, call by call *)

(** The languages that have an import pattern and no function pattern. *)
Lemma import_only_no_table (language : value) :
  ToString language ∈ [u "ts"; u "rust"; u "ruby"] ->
  patterns_get language = None /\
  import_patterns !! ToString language <> None /\
  isTestFile language = false.
Proof.
  unfold patterns_get, isTestFile. intros Hin.
  repeat (apply elem_of_cons in Hin as [Hin | Hin];
          [rewrite Hin; split; [| split];
           [vm_compute; reflexivity | vm_compute; discriminate
           | vm_compute; reflexivity] |]).
  apply elem_of_nil in Hin. contradiction.
Qed.

Lemma import_only_languages (language : value) (rx : regex) :
  patterns_get language = None ->
  import_patterns !! ToString language = Some rx ->
  ToString language ∈ [u "ts"; u "rust"; u "ruby"].
Proof.
  unfold patterns_get. intros Hp Hi.
  apply import_patterns_Some in Hi as [Hin _].
  repeat (apply elem_of_cons in Hin as [Hin | Hin];
          [rewrite Hin in *; vm_compute in Hp;
           first [ discriminate
                 | repeat first [apply list_elem_of_here
                                | apply list_elem_of_further] ] |]).
  apply elem_of_nil in Hin. contradiction.
Qed.

(** What a call of [analyzeDiff] logs and how it ends, for every patch. *)
Lemma analyzeDiff_eq (patch : str) log :
  analyzeDiff patch log =
    (log ++ analysis_log patch,
     if gets_through patch then Returned (bare_record patch)
     else Thrown TypeError).
Proof.
  pose proof (track_context is_added (split patch LF) (Fin 0)) as Hctx.
  rewrite <- getAddedLines_track in Hctx.
  unfold analyzeDiff, gets_through, analysis_log, bare_record.
  unfold bind at 1. unfold logger_info.
  destruct (getAddedLines patch) as [|o rest] eqn:Eadd.
  - unfold containsNewFunctions, containsImports, hasTestChanges, bind,
      logger_warn, no_patterns_warning, ret. cbn [forEach]. unfold ret.
    destruct (patterns_get (detectLanguage patch));
      destruct (isTestFile (detectLanguage patch));
      rewrite <- ?app_assoc; reflexivity.
  - pose proof (import_only_no_table (detectLanguage patch)) as Honly.
    pose proof (import_only_languages (detectLanguage patch)) as Hlang.
    unfold containsNewFunctions.
    destruct (patterns_get (detectLanguage patch)) as [[|p ps]|] eqn:Hp.
    + unfold bind at 1. unfold bind at 1.
      rewrite (forEach_check_line_nil _ _ _ Hctx). unfold ret at 1.
      unfold bind at 1. unfold containsImports.
      rewrite (bool_decide_eq_false_2
                 (ToString (detectLanguage patch) ∈ [u "ts"; u "rust"; u "ruby"]))
        by (intros Hin; apply Honly in Hin as [Hn _]; discriminate).
      destruct (import_patterns !! ToString (detectLanguage patch)) as [rx|] eqn:Hi.
      * exfalso.
        apply import_patterns_Some in Hi as [Hin _].
        clear Honly Hlang. unfold patterns_get in Hp.
        repeat (apply elem_of_cons in Hin as [Hin | Hin];
                [rewrite Hin in Hp; vm_compute in Hp; discriminate |]).
        apply elem_of_nil in Hin. contradiction.
      * rewrite (forEach_check_import_throws _ _ _ _ _ Hi). reflexivity.
    + unfold bind at 1. unfold bind at 1.
      rewrite (forEach_check_line_throws p ps o rest);
        [| inversion Hctx; assumption ].
      rewrite (bool_decide_eq_false_2
                 (ToString (detectLanguage patch) ∈ [u "ts"; u "rust"; u "ruby"]))
        by (intros Hin; apply Honly in Hin as [Hn _]; discriminate).
      reflexivity.
    + unfold bind at 1. unfold bind at 1. unfold logger_warn, ret.
      unfold bind at 1. unfold containsImports. rewrite <- app_assoc.
      destruct (import_patterns !! ToString (detectLanguage patch)) as [rx|] eqn:Hi.
      * assert (Hin : ToString (detectLanguage patch) ∈ [u "ts"; u "rust"; u "ruby"])
          by (apply (Hlang rx); reflexivity).
        destruct (Honly Hin) as (_ & _ & Htest).
        rewrite (forEach_check_import_undefined _ rx _ _ _ Hi
                   (proj2 (import_patterns_Some _ _ Hi)) Hctx).
        rewrite Htest.
        rewrite (bool_decide_eq_true_2
                   (ToString (detectLanguage patch) ∈ [u "ts"; u "rust"; u "ruby"]))
          by exact Hin.
        reflexivity.
      * rewrite (forEach_check_import_throws _ _ _ _ _ Hi).
        rewrite (bool_decide_eq_false_2
                   (ToString (detectLanguage patch) ∈ [u "ts"; u "rust"; u "ruby"]));
          [reflexivity |].
        intros Hin. apply Honly in Hin as (_ & Hin & _). contradiction.
Qed.

(** ** Patches put one after the other *)

Lemma split_app (a b : str) (c : N) :
  split (a ++ c :: b) c = split a c ++ split b c.
Proof.
  induction a as [|x a IH].
  - change ([] ++ c :: b) with (c :: b). cbn [split]. rewrite N.eqb_refl.
    reflexivity.
  - change ((x :: a) ++ c :: b) with (x :: (a ++ c :: b)). cbn [split].
    destruct (x =? c)%N; rewrite IH; [reflexivity |].
    pose proof (split_nonempty a c) as Hn.
    destruct (split a c) as [|p ps]; [contradiction | reflexivity].
Qed.

(** Up to the first hunk header the counter matters only to the records
    made there. *)
Lemma track_restart (marked : str -> bool) (pre : list str) (hdr g : str)
    (rest : list str) (n m : num) :
  hunkMatch hdr = Some g ->
  Forall (fun l => marked l = false) pre ->
  track marked (pre ++ hdr :: rest) n = track marked (pre ++ hdr :: rest) m.
Proof.
  intros Hh H. revert n m. induction H as [|l pre Hl _ IH]; intros n m.
  - change ([] ++ hdr :: rest) with (hdr :: rest).
    rewrite !track_cons, Hh. reflexivity.
  - change ((l :: pre) ++ hdr :: rest) with (l :: pre ++ hdr :: rest).
    rewrite !track_cons, Hl.
    destruct (hunkMatch l); [reflexivity |].
    destruct (is_context l); apply IH.
Qed.

Lemma not_doubled (marker : N) (line : str) :
  startsWith line [marker] && negb (startsWith line [marker; marker; marker]) = true ->
  startsWith (slice line 1) [marker; marker] = false.
Proof.
  destruct line as [|c rest]; [cbn; discriminate |].
  change (startsWith (c :: rest) [marker])
    with ((marker =? c)%N && startsWith rest []).
  replace (startsWith rest []) with true by (destruct rest; reflexivity).
  change (startsWith (c :: rest) [marker; marker; marker])
    with ((marker =? c)%N && startsWith rest [marker; marker]).
  change (slice (c :: rest) 1) with rest.
  destruct (marker =? c)%N, (startsWith rest [marker; marker]); cbn; congruence.
Qed.

Lemma detectLanguage_loop_app (l1 l2 : list str) :
  detectLanguage_loop (l1 ++ l2) =
    match detectLanguage_loop l1 with
    | VNull => detectLanguage_loop l2
    | tag => tag
    end.
Proof.
  induction l1 as [|line l1 IH]; [reflexivity |].
  change ((line :: l1) ++ l2) with (line :: (l1 ++ l2)).
  rewrite !detectLanguage_loop_cons.
  destruct (is_target_header line); [| exact IH].
  destruct (pop_split (target_path line) 46) as (ext & -> & _). reflexivity.
Qed.

(** ** Where the exclusion pattern has nothing to exclude *)

Lemma trimStart_head (w : str) (c : N) (rest : str) :
  blank w -> is_space c = false -> trimStart (w ++ c :: rest) = c :: rest.
Proof.
  intros Hw Hc. rewrite (trimStart_stop _ _ _ Hc), (trimStart_blank _ Hw).
  reflexivity.
Qed.

Lemma commonPatterns_head (s : str) :
  test commonPatterns s = true ->
  exists k rest, k ∈ control_keywords /\ trimStart s = k ++ rest.
Proof.
  intros H. apply test_spec in H as (a0 & m & rest & -> & Hm & Ha0 & _).
  rewrite (Ha0 eq_refl), app_nil_l.
  apply commonPatterns_words in Hm as (a & k & b & -> & Ha & Hk & Hb).
  destruct (keyword_head k Hk) as (c & k' & E & Hc).
  exists k, (b ++ 40%N :: rest). split; [exact Hk |]. subst k.
  replace ((a ++ (c :: k') ++ b ++ [40%N]) ++ rest)
    with (a ++ c :: (k' ++ b ++ 40%N :: rest))
    by (rewrite <- !app_assoc; reflexivity).
  rewrite (trimStart_head a c _ Ha Hc). reflexivity.
Qed.

Lemma py_function_head (s : str) :
  existsb (fun p => test p.2 s) py_patterns = true ->
  exists rest, trimStart s = u "async" ++ rest \/ trimStart s = u "def" ++ rest.
Proof.
  unfold py_patterns. cbn [existsb snd]. rewrite orb_false_r. intros H.
  apply test_spec in H as (a0 & m & b & -> & Hm & Ha0 & _).
  rewrite (Ha0 eq_refl), app_nil_l. cbn [body anchored seq] in Hm.
  inversion Hm as [| |? ? w m2 Hw Hm2| | | |]; subst; clear Hm.
  apply Star_ws_Matches in Hw.
  inversion Hm2 as [| |? ? o m3 Ho Hm3| | | |]; subst; clear Hm2.
  inversion Hm3 as [| |? ? d m4 Hd Hm4| | | |]; subst; clear Hm3 Hm4.
  apply chars_Matches in Hd. subst d.
  unfold opt in Ho.
  inversion Ho as [| | |? ? x Hx|? ? x Hx| |]; subst; clear Ho.
  - inversion Hx as [| |? ? a sp Hasync _| | | |]; subst; clear Hx.
    apply chars_Matches in Hasync. subst a.
    exists (sp ++ u "def" ++ m4 ++ b)%list. left.
    rewrite <- !app_assoc.
    exact (trimStart_head w 97 (u "sync" ++ sp ++ u "def" ++ m4 ++ b) Hw eq_refl).
  - inversion Hx; subst.
    exists (m4 ++ b)%list. right.
    rewrite <- !app_assoc. cbn [app].
    exact (trimStart_head w 100 (u "ef" ++ m4 ++ b) Hw eq_refl).
Qed.

Lemma go_function_head (s : str) :
  existsb (fun p => test p.2 s) go_patterns = true ->
  exists rest, trimStart s = u "func" ++ rest.
Proof.
  unfold go_patterns. cbn [existsb snd]. rewrite orb_false_r. intros H.
  apply test_spec in H as (a0 & m & b & -> & Hm & Ha0 & _).
  rewrite (Ha0 eq_refl), app_nil_l. cbn [body anchored seq] in Hm.
  inversion Hm as [| |? ? w m2 Hw Hm2| | | |]; subst; clear Hm.
  apply Star_ws_Matches in Hw.
  inversion Hm2 as [| |? ? d m3 Hd Hm3| | | |]; subst; clear Hm2 Hm3.
  apply chars_Matches in Hd. subst d.
  exists (m3 ++ b)%list. rewrite <- !app_assoc.
  exact (trimStart_head w 102 (u "unc" ++ m3 ++ b) Hw eq_refl).
Qed.

(** ** The draft *)

Lemma draft_getAddedLines_loop (lines : list str) (n : num) (acc : list Line.t) :
  Draft.getAddedLines_loop lines n (map under_context acc) =
    map under_context (getAddedLines_loop lines n acc).
Proof.
  revert n acc. induction lines as [|line rest IH]; intros n acc; [reflexivity |].
  cbn [Draft.getAddedLines_loop getAddedLines_loop].
  destruct (hunkMatch line); [apply IH |].
  destruct (startsWith line (u "+") && negb (startsWith line (u "+++"))).
  - rewrite <- IH, map_app. reflexivity.
  - destruct (startsWith line (u " ")); apply IH.
Qed.

Lemma draft_getDeletedLines_loop (lines : list str) (n : num) (acc : list Line.t) :
  Draft.getDeletedLines_loop lines n (map under_context acc) =
    map under_context (getDeletedLines_loop lines n acc).
Proof.
  revert n acc. induction lines as [|line rest IH]; intros n acc; [reflexivity |].
  cbn [Draft.getDeletedLines_loop getDeletedLines_loop].
  destruct (hunkMatch line); [apply IH |].
  destruct (startsWith line (u "-") && negb (startsWith line (u "---"))).
  - rewrite <- IH, map_app. reflexivity.
  - destruct (startsWith line (u " ")); apply IH.
Qed.

Lemma draft_getAddedLines_eq (patch : str) :
  Draft.getAddedLines patch = map under_context (getAddedLines patch).
Proof. apply (draft_getAddedLines_loop _ _ []). Qed.

(** Every record of the draft's tracker holds a string under [context]. *)
Lemma draft_contexts_strings (patch : str) :
  Forall (fun o => is_string (Line.context o) = true) (Draft.getAddedLines patch).
Proof.
  rewrite draft_getAddedLines_eq, getAddedLines_track.
  pose proof (track_contents_all is_added is_added_no_header (split patch LF) (Fin 0))
    as Hc.
  apply Forall_forall. intros r Hr.
  apply list_elem_of_fmap in Hr as (o' & -> & Ho').
  assert (Hin : Line.content o' ∈ map Line.content (track is_added (split patch LF) (Fin 0)))
    by (apply list_elem_of_fmap; exists o'; split; [reflexivity | exact Ho']).
  rewrite Hc in Hin. apply list_elem_of_fmap in Hin as (line & E & _).
  unfold under_context. cbn [Line.context]. rewrite E. reflexivity.
Qed.

Lemma draft_detectLanguage_loop_app (l1 l2 : list str) (language : Draft.Language.t) :
  Draft.detectLanguage_loop (l1 ++ l2) language =
    Draft.detectLanguage_loop l2 (Draft.detectLanguage_loop l1 language).
Proof.
  revert language. induction l1 as [|line l1 IH]; intros language; [reflexivity |].
  change ((line :: l1) ++ l2) with (line :: (l1 ++ l2)).
  cbn [Draft.detectLanguage_loop].
  destruct (startsWith line (u "+++")); apply IH.
Qed.

Lemma draft_detectLanguage_loop_none (lines : list str) (language : Draft.Language.t) :
  Forall (fun l => is_draft_header l = false) lines ->
  Draft.detectLanguage_loop lines language = language.
Proof.
  intros H. induction H as [|line lines Hl _ IH]; [reflexivity |].
  cbn [Draft.detectLanguage_loop]. unfold is_draft_header in Hl. rewrite Hl.
  exact IH.
Qed.
(** * Theorems *)

(** The lines of a sample patch, written out. *)
Local Ltac lines_of p :=
  let l := eval vm_compute in (split p LF) in
  change (split p LF) with l.

Local Ltac each_line := repeat (constructor; [vm_compute; reflexivity |]); constructor.

(** C1 (the code departs from the claim): on a removed line, a context line
    and a second removed line under a header that starts at 5,
    [getDeletedLines] numbers the second removed line 7, having moved the
    counter on after the first; the tracker of the specification, which
    leaves the counter where it is on a removed line, numbers it 6. *)
Theorem getDeletedLines_moves_counter_on :
  getDeletedLines patch_removals =
    [ Line.mk (Fin 5) (VStr (u "let a = 1;")) VUndefined;
      Line.mk (Fin 7) (VStr (u "let b = 2;")) VUndefined ] /\
  Spec.trackLines patch_removals Spec.Removed =
    [ Line.mk (Fin 5) (VStr (u "let a = 1;")) VUndefined;
      Line.mk (Fin 6) (VStr (u "let b = 2;")) VUndefined ].
Proof. vm_compute. split; reflexivity. Qed.

(** C2 (the code departs from the claim): for a patch that adds a line to
    [README.md], [containsNewFunctions] warns that the language has no
    patterns and returns, and the call of [containsImports] that follows
    throws a [TypeError]: [analyzeDiff] throws. In general [analyzeDiff]
    returns only on the patches that add no line and on those whose language
    tag is [ts], [rust] or [ruby]. *)
Theorem analyzeDiff_throws_without_pattern_table :
  (detectLanguage patch_readme = VStr (u "md") /\
   run (containsNewFunctions (getAddedLines patch_readme) (VStr (u "md"))) =
     ([(warn, u "No patterns defined for language: md")],
      Returned (Results.mk false [] [] (VStr (u "md")))) /\
   (run (containsImports (getAddedLines patch_readme) (VStr (u "md")))).2 =
     Thrown TypeError /\
   (run (analyzeDiff patch_readme)).2 = Thrown TypeError) /\
  forall patch log,
    (exists log' r, analyzeDiff patch log = (log', Returned r)) <->
    (getAddedLines patch = [] \/
     ToString (detectLanguage patch) ∈ [u "ts"; u "rust"; u "ruby"]).
Proof.
  split; [vm_compute; repeat split | apply analyzeDiff_returns_iff].
Qed.

(** C3 (the code departs from the claim): the tracker stores the text of an
    added line under [content] and [containsNewFunctions] reads [context],
    so on the patch that adds [function computeTotal(x, y) {] at line 10 of
    a [js] file the matcher calls [match] on [undefined] and [analyzeDiff]
    throws a [TypeError]. Handed the same line under [context], the matcher
    reports the text with line number 10. *)
Theorem analyzeDiff_throws_on_computeTotal :
  getAddedLines patch_computeTotal =
    [ Line.mk (Fin 10) (VStr (u "function computeTotal(x, y) {")) VUndefined ] /\
  detectLanguage patch_computeTotal = VStr (u "js") /\
  (run (containsNewFunctions (getAddedLines patch_computeTotal)
          (detectLanguage patch_computeTotal))).2 = Thrown TypeError /\
  (run (analyzeDiff patch_computeTotal)).2 = Thrown TypeError /\
  (run (containsNewFunctions
          [line_with_context 10 "function computeTotal(x, y) {"]
          (VStr (u "js")))).2 =
    Returned (Results.mk true [u "function computeTotal(x, y) {"] [Fin 10]
                (VStr (u "js"))).
Proof. vm_compute. repeat split. Qed.

(** C4, as the code has it: [detectLanguage] stops at the first line that,
    trimmed, begins with [+++]; it removes the first [+++] and the first
    [b/] from the trimmed line and trims again; it answers the part of that
    path after its last [.], in the case the path has it (and the whole path
    when no [.] occurs in it). Without such a line it answers [null]. On a
    patch whose first such line is [+++ b/src/app.py] it answers [py]. *)
Theorem detectLanguage_extension (patch : str) :
  (Forall (fun l => is_target_header l = false) (split patch LF) ->
   detectLanguage patch = VNull) /\
  (forall pre line post,
     split patch LF = pre ++ line :: post ->
     Forall (fun l => is_target_header l = false) pre ->
     is_target_header line = true ->
     exists ext,
       detectLanguage patch = VStr ext /\ (46%N ∉ ext) /\
       (target_path line = ext \/
        exists stem, target_path line = stem ++ 46%N :: ext)) /\
  (forall pre post,
     split patch LF = pre ++ u "+++ b/src/app.py" :: post ->
     Forall (fun l => is_target_header l = false) pre ->
     detectLanguage patch = VStr (u "py")).
Proof.
  unfold detectLanguage. split; [| split].
  - apply detectLanguage_loop_none.
  - intros pre line post -> Hpre Hline.
    rewrite (detectLanguage_loop_first pre line post Hpre Hline).
    apply pop_split.
  - intros pre post -> Hpre.
    rewrite (detectLanguage_loop_first pre _ post Hpre); reflexivity.
Qed.

(** The theorem at work on a change to [src/app.py] and on text without a
    header. *)
Lemma detectLanguage_extension_witness :
  (exists ext,
     detectLanguage patch_app_py = VStr ext /\ (46%N ∉ ext) /\
     (target_path (u "+++ b/src/app.py") = ext \/
      exists stem, target_path (u "+++ b/src/app.py") = stem ++ 46%N :: ext)) /\
  detectLanguage patch_app_py = VStr (u "py") /\
  detectLanguage (u "Binary files differ") = VNull.
Proof.
  split; [| split].
  - apply (proj1 (proj2 (detectLanguage_extension patch_app_py))
             [u "--- a/src/app.py"] (u "+++ b/src/app.py")
             [u "@@ -1,2 +1,3 @@"; u " import os"; u "+import sys"; u " "]);
      [reflexivity | repeat constructor | reflexivity].
  - apply (proj2 (proj2 (detectLanguage_extension patch_app_py))
             [u "--- a/src/app.py"]
             [u "@@ -1,2 +1,3 @@"; u " import os"; u "+import sys"; u " "]);
      [reflexivity | repeat constructor].
  - apply (proj1 (detectLanguage_extension (u "Binary files differ"))).
    repeat constructor.
Defined.

(** C4 as stated fails: the code leaves the case of the extension as it is,
    answers the whole path when the path has no [.], and answers [null], not
    [unknown], when no line begins with [+++]. *)
Lemma detectLanguage_not_as_specified :
  (detectLanguage (u "+++ b/src/App.PY") = VStr (u "PY") /\
   Spec.detectLanguage (u "+++ b/src/App.PY") = u "py") /\
  (detectLanguage (u "+++ b/Makefile") = VStr (u "Makefile") /\
   Spec.detectLanguage (u "+++ b/Makefile") = u "unknown") /\
  (detectLanguage (u "@@ -1 +1 @@") = VNull /\
   Spec.detectLanguage (u "@@ -1 +1 @@") = u "unknown") /\
  ~ (forall patch, detectLanguage patch = VStr (Spec.detectLanguage patch)).
Proof.
  repeat split; try reflexivity.
  intros H. specialize (H (u "+++ b/src/App.PY")). vm_compute in H. discriminate.
Qed.

(** C5, as the code has it: [analyzeDiff] computes [isTestFile] from the
    answer of [detectLanguage], the text after the last [.] of the path,
    which has no [.] in it. When the call returns, [isTestFile] is true
    exactly when that text holds [__tests__/], and when it is false so is
    [hasTestChanges]. Both are false when the text after the last [.] has no
    [/], that is when the last [.] of the path is in the file name, as in
    [calculator.test.js]. *)
Theorem isTestFile_of_language_tag (patch : str) log log' (r : Parsed.t) :
  analyzeDiff patch log = (log', Returned r) ->
  Parsed.isTestFile r = isTestFile (detectLanguage patch) /\
  (Parsed.isTestFile r = true <->
   exists tag, detectLanguage patch = VStr tag /\ occurs (u "__tests__/") tag) /\
  (Parsed.isTestFile r = false -> Parsed.hasTestChanges r = VBool false) /\
  (forall tag,
     detectLanguage patch = VStr tag -> 47%N ∉ tag ->
     Parsed.isTestFile r = false /\ Parsed.hasTestChanges r = VBool false).
Proof.
  intros H. apply analyzeDiff_Returned in H as (_ & _ & _ & Etest & Hfalse).
  assert (Hiff : isTestFile (detectLanguage patch) = true <->
                 exists tag, detectLanguage patch = VStr tag /\
                             occurs (u "__tests__/") tag).
  { destruct (detectLanguage_cases patch) as [E | (tag & E & Hdot)]; rewrite E.
    - split; [discriminate | intros (tag & ? & _); discriminate].
    - rewrite (isTestFile_without_dot tag Hdot), test_lit. split.
      + intros Ho. exists tag. split; [reflexivity | exact Ho].
      + intros (tag' & [= <-] & Ho). exact Ho. }
  split; [exact Etest |]. split; [rewrite Etest; exact Hiff |].
  split; [rewrite Etest; exact Hfalse |].
  intros tag E Hslash.
  assert (Hf : isTestFile (detectLanguage patch) = false).
  { destruct (isTestFile (detectLanguage patch)); [| reflexivity].
    destruct (proj1 Hiff eq_refl) as (tag' & E' & Ho).
    rewrite E in E'. injection E' as <-.
    exfalso. exact (not_occurs_without_slash tag Hslash Ho). }
  split; [rewrite Etest; exact Hf | apply Hfalse, Hf].
Qed.

(** The theorem at work on a patch that removes a line of
    [calculator.test.js]. *)
Lemma isTestFile_of_language_tag_witness :
  detectLanguage patch_test_file = VStr (u "js") /\
  exists r,
    (run (analyzeDiff patch_test_file)).2 = Returned r /\
    Parsed.isTestFile r = false /\ Parsed.hasTestChanges r = VBool false.
Proof.
  split; [reflexivity |].
  destruct (run (analyzeDiff patch_test_file)) as [log' [r | e]] eqn:E;
    [| vm_compute in E; discriminate].
  exists r. split; [reflexivity |].
  apply (proj2 (proj2 (proj2 (isTestFile_of_language_tag patch_test_file [] log' r E)))
           (u "js")); [reflexivity |].
  vm_compute. intros H.
  repeat (apply elem_of_cons in H as [H | H]; [discriminate |]).
  apply elem_of_nil in H. exact H.
Defined.

(** C5 as stated fails: the path [v1.0/__tests__/calc] has a dot, the text
    after its last dot is [0/__tests__/calc], which the directory pattern
    matches; on a patch that removes a line of that file [analyzeDiff]
    returns a record whose [isTestFile] is true and whose [hasTestChanges]
    is [undefined]. *)
Lemma isTestFile_true_with_dot_in_path :
  target_path (u "+++ b/v1.0/__tests__/calc") = u "v1.0/__tests__/calc" /\
  detectLanguage patch_tests_dir = VStr (u "0/__tests__/calc") /\
  exists r,
    (run (analyzeDiff patch_tests_dir)).2 = Returned r /\
    Parsed.isTestFile r = true /\ Parsed.hasTestChanges r = VUndefined.
Proof.
  split; [reflexivity |]. split; [reflexivity |].
  eexists. split; [vm_compute; reflexivity |]. split; reflexivity.
Qed.

(** C6, as the code has it: on a patch without a hunk-header line the two
    trackers return (they are total functions, nothing in them throws), and
    what they return is one record for each line that begins with [+] and
    not with [+++] (for [getDeletedLines]: with [-] and not with [---]), in
    the order of the lines: the record of such a line stands at the place
    that the recorded lines before it leave, it holds the line without its
    marker, and its number is that of a counter that starts at 0 and has
    moved on at each recorded line and each context line before it. The
    collection is empty exactly when the patch has no such line. *)
Theorem trackers_without_hunk_header (patch : str) :
  Forall (fun l => hunkMatch l = None) (split patch LF) ->
  (length (getAddedLines patch) = length (List.filter is_added (split patch LF)) /\
   map Line.content (getAddedLines patch) =
     map (fun l => VStr (slice l 1)) (List.filter is_added (split patch LF)) /\
   (getAddedLines patch = [] <->
    Forall (fun l => is_added l = false) (split patch LF)) /\
   (forall pre line post,
      split patch LF = pre ++ line :: post -> is_added line = true ->
      getAddedLines patch !! length (List.filter is_added pre) =
        Some (Line.mk (Nat.iter (length (List.filter
                                           (fun l => is_added l || is_context l) pre))
                                incr (Fin 0))
                      (VStr (slice line 1)) VUndefined))) /\
  (length (getDeletedLines patch) = length (List.filter is_removed (split patch LF)) /\
   map Line.content (getDeletedLines patch) =
     map (fun l => VStr (slice l 1)) (List.filter is_removed (split patch LF)) /\
   (getDeletedLines patch = [] <->
    Forall (fun l => is_removed l = false) (split patch LF)) /\
   (forall pre line post,
      split patch LF = pre ++ line :: post -> is_removed line = true ->
      getDeletedLines patch !! length (List.filter is_removed pre) =
        Some (Line.mk (Nat.iter (length (List.filter
                                           (fun l => is_removed l || is_context l) pre))
                                incr (Fin 0))
                      (VStr (slice line 1)) VUndefined))).
Proof.
  intros H. rewrite getAddedLines_track, getDeletedLines_track.
  split;
    (split; [apply track_length, H |
     split; [apply track_contents, H | split; [apply track_nil_iff, H |]]]);
    intros pre line post E Hm; rewrite E in *; apply track_lookup; assumption.
Qed.

(** The theorem at work on four lines without a header, and on a removed
    line, a context line and a second removed line of the same text. *)
Lemma trackers_without_hunk_header_witness :
  Forall (fun l => hunkMatch l = None) (split patch_no_header LF) /\
  (getAddedLines patch_no_header = [] <->
   Forall (fun l => is_added l = false) (split patch_no_header LF)) /\
  getDeletedLines patch_no_header !! 0 =
    Some (Line.mk (Fin 1) (VStr (u "removed")) VUndefined) /\
  getDeletedLines (unlines [u "-}"; u " x"; u "-}"]) !! 1 =
    Some (Line.mk (Fin 2) (VStr (u "}")) VUndefined).
Proof.
  assert (H : Forall (fun l => hunkMatch l = None) (split patch_no_header LF))
    by (lines_of patch_no_header; each_line).
  assert (H' : Forall (fun l => hunkMatch l = None)
                 (split (unlines [u "-}"; u " x"; u "-}"]) LF))
    by (lines_of (unlines [u "-}"; u " x"; u "-}"]); each_line).
  split; [exact H |]. split; [| split].
  - exact (proj1 (proj2 (proj2 (proj1 (trackers_without_hunk_header patch_no_header H))))).
  - exact (proj2 (proj2 (proj2 (proj2 (trackers_without_hunk_header patch_no_header H))))
             [u "+++ b/notes.txt"; u " kept"; u "+added"] (u "-removed") []
             eq_refl eq_refl).
  - exact (proj2 (proj2 (proj2 (proj2 (trackers_without_hunk_header _ H'))))
             [u "-}"; u " x"] (u "-}") [] eq_refl eq_refl).
Defined.

(** C6 as stated fails: without any hunk header, the line [+added] is
    recorded by [getAddedLines] and the line [-removed] by
    [getDeletedLines], each under the number 1 that the context line before
    it has moved the counter to. *)
Lemma trackers_record_without_hunk_header :
  Forall (fun l => hunkMatch l = None) (split patch_no_header LF) /\
  getAddedLines patch_no_header =
    [ Line.mk (Fin 1) (VStr (u "added")) VUndefined ] /\
  getDeletedLines patch_no_header =
    [ Line.mk (Fin 1) (VStr (u "removed")) VUndefined ].
Proof.
  split; [lines_of patch_no_header; each_line |]. split; reflexivity.
Qed.

(** C7, as the code has it: the numbers that [getAddedLines] gives the
    lines of one hunk (the lines between a hunk header and the next) never
    go down and start from the value the header declares, the counter being
    set to that value at the header; the same holds from 0 for the lines
    before the first header. Over the whole patch the numbers never go down
    when no header declares a start below the number the counter has
    reached. *)
Theorem addedLines_numbers_per_hunk (patch : str) :
  (forall pre hdr g body post,
     split patch LF = pre ++ hdr :: body ++ post ->
     hunkMatch hdr = Some g ->
     Forall (fun l => hunkMatch l = None) body ->
     exists before after,
       getAddedLines patch =
         before ++ getAddedLines_loop body (parseInt g) [] ++ after /\
       StronglySorted num_le
         (parseInt g :: numbers (getAddedLines_loop body (parseInt g) []))) /\
  (forall body post,
     split patch LF = body ++ post ->
     Forall (fun l => hunkMatch l = None) body ->
     exists after,
       getAddedLines patch = getAddedLines_loop body (Fin 0) [] ++ after /\
       StronglySorted num_le
         (Fin 0 :: numbers (getAddedLines_loop body (Fin 0) []))) /\
  (no_step_back is_added (split patch LF) (Fin 0) ->
   StronglySorted num_le (numbers (getAddedLines patch))).
Proof.
  rewrite getAddedLines_track. split; [| split].
  - intros pre hdr g body post -> Hh Hbody.
    rewrite getAddedLines_loop_track. simpl app at 3.
    change (pre ++ hdr :: body ++ post) with (pre ++ [hdr] ++ body ++ post).
    rewrite app_assoc, !track_app, (counter_after_header _ pre hdr g _ Hh).
    eexists _, _. split; [reflexivity |].
    apply track_sorted;
      [apply representable_parseInt | apply no_step_back_without_header, Hbody].
  - intros body post -> Hbody.
    rewrite getAddedLines_loop_track, track_app. simpl app at 2.
    eexists. split; [reflexivity |].
    apply track_sorted; [reflexivity | apply no_step_back_without_header, Hbody].
  - intros H.
    pose proof (track_sorted is_added _ (Fin 0) eq_refl H) as Hs.
    inversion Hs; assumption.
Qed.

(** The theorem at work on a patch of two hunks. *)
Lemma addedLines_numbers_per_hunk_witness :
  (exists before after,
     getAddedLines patch_two_hunks =
       before ++ getAddedLines_loop
                   [u "+const d = 4;"; u " const e = 5;"; u "+const f = 6;"]
                   (parseInt (u "21")) [] ++ after /\
     StronglySorted num_le
       (parseInt (u "21")
          :: numbers (getAddedLines_loop
                        [u "+const d = 4;"; u " const e = 5;"; u "+const f = 6;"]
                        (parseInt (u "21")) []))) /\
  StronglySorted num_le (numbers (getAddedLines patch_two_hunks)) /\
  numbers (getAddedLines patch_two_hunks) = [Fin 10; Fin 21; Fin 23].
Proof.
  split; [| split].
  - apply (proj1 (addedLines_numbers_per_hunk patch_two_hunks)
             [u "--- a/calc.js"; u "+++ b/calc.js"; u "@@ -9,2 +9,3 @@";
              u " const a = 1;"; u "+const b = 2;"; u " const c = 3;"]
             (u "@@ -20,2 +21,3 @@") (u "21")
             [u "+const d = 4;"; u " const e = 5;"; u "+const f = 6;"] []);
      [reflexivity | reflexivity | each_line].
  - apply (proj2 (proj2 (addedLines_numbers_per_hunk patch_two_hunks))).
    lines_of patch_two_hunks. simpl. repeat split; lia.
  - reflexivity.
Defined.

(** C7 as stated fails: in a diff of two files, and in a patch whose
    second hunk header declares an earlier start than the first, the
    numbers of the added lines go down at the second header. *)
Lemma addedLines_numbers_step_back :
  (numbers (getAddedLines patch_two_files) = [Fin 10; Fin 1] /\
   ~ StronglySorted num_le (numbers (getAddedLines patch_two_files))) /\
  (numbers (getAddedLines patch_hunks_out_of_order) = [Fin 21; Fin 10] /\
   ~ StronglySorted num_le (numbers (getAddedLines patch_hunks_out_of_order))).
Proof.
  assert (E1 : numbers (getAddedLines patch_two_files) = [Fin 10; Fin 1])
    by reflexivity.
  assert (E2 : numbers (getAddedLines patch_hunks_out_of_order) = [Fin 21; Fin 10])
    by reflexivity.
  rewrite E1, E2. repeat split.
  - intros H. inversion H as [|? ? _ Hall]; subst.
    inversion Hall as [|? ? Hle _]; subst. simpl in Hle. lia.
  - intros H. inversion H as [|? ? _ Hall]; subst.
    inversion Hall as [|? ? Hle _]; subst. simpl in Hle. lia.
Qed.

(** C8: the line [for (let i = 0; i < 10; i++) {] matches the [method]
    pattern of the [js] table and the exclusion pattern. Whatever the
    added-line collection and the language, when [containsNewFunctions]
    returns: the two arrays have the same length; every text it reports
    comes from a line object whose [context] the exclusion pattern does not
    match and a pattern of the language does; the text of a line that the
    exclusion pattern matches, trimmed as the matcher records texts, is not
    among the reported texts, whether or not a function pattern matches it;
    and the [for] line is not among them. *)
Theorem excluded_lines_not_reported :
  (exists rx, ("method", rx) ∈ js_patterns /\ test rx for_line = true) /\
  test commonPatterns for_line = true /\
  forall (addedLines : list Line.t) (language : value) log log' r,
    containsNewFunctions addedLines language log = (log', Returned r) ->
    length (Results.newFunctions r) = length (Results.lineNumbers r) /\
    (forall text n,
       (text, n) ∈ reported r ->
       exists langPatterns,
         patterns_get language = Some langPatterns /\
         reported_from addedLines langPatterns text n) /\
    (forall s, test commonPatterns s = true -> trim s ∉ Results.newFunctions r) /\
    for_line ∉ Results.newFunctions r.
Proof.
  split; [eexists; split; [do 3 apply list_elem_of_further; apply list_elem_of_here
                          | vm_compute; reflexivity] |].
  split; [vm_compute; reflexivity |].
  intros addedLines language log log' r Hrun.
  assert (H : length (Results.newFunctions r) = length (Results.lineNumbers r) /\
              Forall (fun text => test commonPatterns text = false)
                     (Results.newFunctions r) /\
              forall text n,
                (text, n) ∈ reported r ->
                exists langPatterns,
                  patterns_get language = Some langPatterns /\
                  reported_from addedLines langPatterns text n).
  { unfold containsNewFunctions in Hrun.
    destruct (patterns_get language) as [langPatterns|].
    - apply bind_Returned in Hrun as (acc & log1 & Hloop & Hret).
      injection Hret as _ <-. unfold reported. cbn [Results.newFunctions Results.lineNumbers].
      apply forEach_check_line in Hloop as (Hlen & Hex & Hrep).
      split; [exact Hlen |]. split; [exact Hex |].
      intros text n Hin. exists langPatterns. split; [reflexivity | apply Hrep, Hin].
    - apply bind_Returned in Hrun as (? & log1 & _ & Hret).
      injection Hret as _ <-. unfold reported. cbn [Results.newFunctions Results.lineNumbers].
      split; [reflexivity |]. split; [constructor |].
      intros text n Hin. apply elem_of_nil in Hin. contradiction. }
  destruct H as (Hlen & Hex & Hrep). rewrite Forall_forall in Hex.
  split; [exact Hlen |]. split; [exact Hrep |]. split.
  - intros s Hs Hin. apply Hex in Hin.
    rewrite commonPatterns_trim_eq in Hin. congruence.
  - intros Hin. apply Hex in Hin. vm_compute in Hin. discriminate.
Qed.

(** The theorem at work on a function header followed by a [for] line. *)
Lemma excluded_lines_not_reported_witness :
  (run (containsNewFunctions
          [ line_with_context 10 "function computeTotal(x, y) {";
            line_with_context 11 "  for (let i = 0; i < 10; i++) {" ]
          (VStr (u "js")))).2 =
    Returned (Results.mk true [u "function computeTotal(x, y) {"] [Fin 10]
                (VStr (u "js"))) /\
  (for_line ∉ [u "function computeTotal(x, y) {"]) /\
  (trim (u "  for (let i = 0; i < 10; i++) {")
     ∉ [u "function computeTotal(x, y) {"]).
Proof.
  split; [reflexivity |].
  pose proof (proj2 (proj2 excluded_lines_not_reported)
                [ line_with_context 10 "function computeTotal(x, y) {";
                  line_with_context 11 "  for (let i = 0; i < 10; i++) {" ]
                (VStr (u "js")) [] _ _ eq_refl) as (_ & _ & Hex & Hfor).
  split; [exact Hfor |].
  apply (Hex (u "  for (let i = 0; i < 10; i++) {")). reflexivity.
Defined.

(** C9: [isTestFile] holds of [calculator.test.js], [__tests__/calc.js],
    [test_calc.py] and [calc_test.py], and does not hold of [calculator.js]. *)
Theorem isTestFile_examples :
  isTestFile (VStr (u "calculator.test.js")) = true /\
  isTestFile (VStr (u "__tests__/calc.js")) = true /\
  isTestFile (VStr (u "test_calc.py")) = true /\
  isTestFile (VStr (u "calc_test.py")) = true /\
  isTestFile (VStr (u "calculator.js")) = false.
Proof. vm_compute. repeat split. Qed.


(** * Further properties of the parser *)

(** X1: whatever the patch, [getAddedLines] returns one record for each
    line that begins with [+] and not with [+++], in the order of the
    lines, holding the line without its first code unit, and
    [getDeletedLines] does the same for the lines that begin with [-] and
    not with [---]; a hunk header and the two file headers are never
    recorded. *)
Theorem trackers_record_the_marked_lines (patch : str) :
  map Line.content (getAddedLines patch) =
    map (fun l => VStr (slice l 1)) (List.filter is_added (split patch LF)) /\
  map Line.content (getDeletedLines patch) =
    map (fun l => VStr (slice l 1)) (List.filter is_removed (split patch LF)).
Proof.
  rewrite getAddedLines_track, getDeletedLines_track. split.
  - apply track_contents_all, is_added_no_header.
  - apply track_contents_all, is_removed_no_header.
Qed.

(** X2: an added line of a hunk gets the number it has in the new file: the
    start that the hunk header declares plus the number of added and
    context lines between the header and the line, removed lines and other
    lines in between not counting (as long as the number stays below 2^53). *)
Theorem addedLines_number_in_hunk (patch : str)
    (pre : list str) (hdr g : str) (before : list str) (line : str)
    (post : list str) :
  split patch LF = pre ++ hdr :: before ++ line :: post ->
  hunkMatch hdr = Some g ->
  Forall (fun l => hunkMatch l = None) before ->
  is_added line = true ->
  (digits_value 0 g + N.of_nat (length (List.filter takes_a_slot before))
   < 2 ^ 53)%N ->
  Line.mk (Fin (digits_value 0 g
                + N.of_nat (length (List.filter takes_a_slot before))))
          (VStr (slice line 1)) VUndefined
    ∈ getAddedLines patch.
Proof.
  intros E Hh Hbefore Hline Hsmall. rewrite getAddedLines_track, E.
  change (pre ++ hdr :: before ++ line :: post)
    with (pre ++ [hdr] ++ before ++ line :: post).
  rewrite app_assoc, track_app, (counter_after_header _ pre hdr g _ Hh).
  apply elem_of_app. right.
  rewrite <- (iter_incr_small _ _ Hsmall).
  apply (track_number_after is_added is_added_no_header); assumption.
Qed.

(** The theorem at work on the second hunk of a patch of two hunks. *)
Lemma addedLines_number_in_hunk_witness :
  Line.mk (Fin 23) (VStr (u "const f = 6;")) VUndefined
    ∈ getAddedLines patch_two_hunks.
Proof.
  apply (addedLines_number_in_hunk patch_two_hunks
           [u "--- a/calc.js"; u "+++ b/calc.js"; u "@@ -9,2 +9,3 @@";
            u " const a = 1;"; u "+const b = 2;"; u " const c = 3;"]
           (u "@@ -20,2 +21,3 @@") (u "21")
           [u "+const d = 4;"; u " const e = 5;"] (u "+const f = 6;") []);
    [reflexivity | reflexivity
    | repeat (constructor; [vm_compute; reflexivity |]); constructor
    | reflexivity | vm_compute; reflexivity].
Defined.

(** X3: a removed line of a hunk is numbered by [getDeletedLines] with the
    start of the new file that the hunk header declares plus the number of
    removed and context lines between the header and the line: the removed
    lines before it count, the added ones do not (as long as the number
    stays below 2^53). *)
Theorem deletedLines_number_in_hunk (patch : str)
    (pre : list str) (hdr g : str) (before : list str) (line : str)
    (post : list str) :
  split patch LF = pre ++ hdr :: before ++ line :: post ->
  hunkMatch hdr = Some g ->
  Forall (fun l => hunkMatch l = None) before ->
  is_removed line = true ->
  (digits_value 0 g + N.of_nat (length (List.filter moves_deleted_counter before))
   < 2 ^ 53)%N ->
  Line.mk (Fin (digits_value 0 g
                + N.of_nat (length (List.filter moves_deleted_counter before))))
          (VStr (slice line 1)) VUndefined
    ∈ getDeletedLines patch.
Proof.
  intros E Hh Hbefore Hline Hsmall. rewrite getDeletedLines_track, E.
  change (pre ++ hdr :: before ++ line :: post)
    with (pre ++ [hdr] ++ before ++ line :: post).
  rewrite app_assoc, track_app, (counter_after_header _ pre hdr g _ Hh).
  apply elem_of_app. right.
  rewrite <- (iter_incr_small _ _ Hsmall).
  apply (track_number_after is_removed is_removed_no_header); assumption.
Qed.

(** The theorem at work on a hunk that removes two lines around a kept one. *)
Lemma deletedLines_number_in_hunk_witness :
  Line.mk (Fin 7) (VStr (u "let b = 2;")) VUndefined
    ∈ getDeletedLines patch_removals.
Proof.
  apply (deletedLines_number_in_hunk patch_removals
           [u "--- a/calc.js"; u "+++ b/calc.js"]
           (u "@@ -5,3 +5,1 @@") (u "5")
           [u "-let a = 1;"; u " let c = 3;"] (u "-let b = 2;") []);
    [reflexivity | reflexivity
    | repeat (constructor; [vm_compute; reflexivity |]); constructor
    | reflexivity | vm_compute; reflexivity].
Defined.

(** X4: a line is taken for a hunk header, by the pattern of the trackers,
    exactly when it begins with [@@ -], digits, an optional [,digits], [ +],
    digits, an optional [,digits] and [ @@]; anything may follow, nothing
    may come before; and the group that the counter is set from is the run
    of digits after [ +]. *)
Theorem hunk_header_shape (line : str) :
  (test hunk_header line = true <->
   exists d1 c1 g c2 rest,
     line = u "@@ -" ++ d1 ++ c1 ++ u " +" ++ g ++ c2 ++ u " @@" ++ rest /\
     digits d1 /\ count_part c1 /\ digits g /\ count_part c2) /\
  (forall g,
     hunkMatch line = Some g <->
     exists d1 c1 c2 rest,
       line = u "@@ -" ++ d1 ++ c1 ++ u " +" ++ g ++ c2 ++ u " @@" ++ rest /\
       digits d1 /\ count_part c1 /\ digits g /\ count_part c2).
Proof.
  split; [| intros g; apply hunkMatch_Some].
  rewrite <- hunkMatch_test. split.
  - intros [g Hg]. apply hunkMatch_Some in Hg as (d1 & c1 & c2 & rest & H).
    exists d1, c1, g, c2, rest. exact H.
  - intros (d1 & c1 & g & c2 & rest & H). exists g. apply hunkMatch_Some.
    exists d1, c1, c2, rest. exact H.
Qed.

(** X5: [isTestFile] holds of a file name exactly when the name contains
    [.test.], [.spec.], [__tests__/] or [_test.], or ends with [.test] or
    [.spec], or holds [test_] and ends with [.py], with no line break
    between the two. The last pattern of the list, [/.*_test\.py$/], adds
    nothing to the fourth. *)
Theorem isTestFile_names (s : str) :
  isTestFile (VStr s) = true <->
  occurs (u ".test.") s \/ occurs (u ".spec.") s \/ occurs (u "__tests__/") s \/
  occurs (u "_test.") s \/ ends_with (u ".test") s \/ ends_with (u ".spec") s \/
  exists a x, s = a ++ u "test_" ++ x ++ u ".py" /\ one_line x.
Proof.
  unfold isTestFile, testPatterns. cbn [existsb ToString].
  rewrite !orb_true_iff, !test_lit, !test_at_end_lit, test_py_prefix.
  split; [| tauto].
  intros [H | [H | [H | [H | [H | [H | [H | [H | H]]]]]]]]; try tauto.
  - apply test_py_suffix in H. tauto.
  - discriminate.
Qed.

(** X6: when every line object carries a string under [context] and the
    language has a pattern table, [containsNewFunctions] returns, logs
    nothing, and reports exactly the lines whose text the exclusion pattern
    does not match and some pattern of the language does: their trimmed
    texts and their line numbers, in the order of the lines and each line
    once, however many patterns match it. *)
Theorem containsNewFunctions_finds (addedLines : list Line.t) (language : value)
    (langPatterns : list (string * regex)) log :
  patterns_get language = Some langPatterns ->
  Forall (fun o => is_string (Line.context o) = true) addedLines ->
  containsNewFunctions addedLines language log =
    (log,
     Returned
       (Results.mk
          (bool_decide (0 < length (function_lines langPatterns addedLines)))
          (reported_texts (function_lines langPatterns addedLines))
          (numbers (function_lines langPatterns addedLines))
          language)).
Proof.
  intros Hp Hs. unfold containsNewFunctions. rewrite Hp. unfold bind.
  rewrite forEach_check_line_eq.
  replace (forallb (fun o => is_string (Line.context o)) addedLines) with true
    by (symmetry; apply forallb_true_Forall; exact Hs).
  rewrite orb_true_r. cbn [fst snd app]. unfold ret, reported_texts.
  rewrite length_map. reflexivity.
Qed.

(** The theorem at work on four lines of a [js] file, one of them a
    control-flow line and one a plain call. *)
Lemma containsNewFunctions_finds_witness :
  (run (containsNewFunctions
          [ line_with_context 3 "  async function load(url) {";
            line_with_context 4 "    if (cached(url)) {";
            line_with_context 5 "    return fetch(url);";
            line_with_context 9 "const twice = (x) => 2 * x;" ]
          (VStr (u "js")))).2 =
    Returned (Results.mk true
                [u "async function load(url) {"; u "const twice = (x) => 2 * x;"]
                [Fin 3; Fin 9] (VStr (u "js"))).
Proof.
  unfold run.
  rewrite (containsNewFunctions_finds _ (VStr (u "js")) js_patterns []);
    [reflexivity | reflexivity | repeat constructor].
Defined.

(** X7: under one of the four languages that have function patterns,
    [containsNewFunctions] throws a [TypeError], having logged nothing,
    exactly when some line object does not carry a string under [context]. *)
Theorem containsNewFunctions_throws_iff (addedLines : list Line.t)
    (language : value) log :
  ToString language ∈ function_languages ->
  (containsNewFunctions addedLines language log = (log, Thrown TypeError) <->
   Exists (fun o => is_string (Line.context o) = false) addedLines).
Proof.
  intros Hl. destruct (patterns_get_function_language _ Hl) as (p & ps & Hp).
  unfold containsNewFunctions. rewrite Hp. unfold bind.
  rewrite forEach_check_line_eq. cbn [nothing_to_try orb].
  destruct (forallb _ addedLines) eqn:E.
  - split; [discriminate |]. intros Hex.
    apply forallb_false_Exists in Hex. congruence.
  - split; [| reflexivity]. intros _.
    apply forallb_false_Exists in E. exact E.
Qed.

(** The theorem at work on the line objects that [getAddedLines] builds. *)
Lemma containsNewFunctions_throws_iff_witness :
  containsNewFunctions (getAddedLines patch_computeTotal) (VStr (u "js")) [] =
    ([], Thrown TypeError).
Proof.
  apply (containsNewFunctions_throws_iff _ (VStr (u "js")) []).
  - unfold function_languages. cbn [map ToString]. apply list_elem_of_here.
  - apply Exists_cons_hd. reflexivity.
Defined.

(** X8: for a language that has no function patterns (and is not the name
    of a member that every object inherits), [containsNewFunctions] never
    looks at the lines: it logs one warning that names the language and
    returns the empty result. *)
Theorem containsNewFunctions_without_table (addedLines : list Line.t)
    (language : value) log :
  ToString language ∉ function_languages ++ Object_prototype ->
  containsNewFunctions addedLines language log =
    (log ++ [no_patterns_warning language],
     Returned (Results.mk false [] [] language)).
Proof.
  intros H. unfold containsNewFunctions. rewrite (patterns_get_None _ H).
  reflexivity.
Qed.

(** The theorem at work on the tag [null] of a patch without a header. *)
Lemma containsNewFunctions_without_table_witness :
  containsNewFunctions (getAddedLines patch_no_header) VNull [] =
    ([(warn, u "No patterns defined for language: null")],
     Returned (Results.mk false [] [] VNull)).
Proof.
  apply (containsNewFunctions_without_table _ VNull []).
  vm_compute. intros H.
  repeat (apply elem_of_cons in H as [H | H]; [discriminate |]).
  apply elem_of_nil in H. exact H.
Defined.

(** X9: for a language whose name is a member that the table inherits
    from [Object.prototype] ([constructor], [toString], ...), the guard of
    [containsNewFunctions] lets the lookup through: no warning is logged,
    no line is tried, whatever the line objects hold, and the empty result
    is returned. *)
Theorem containsNewFunctions_inherited_name (addedLines : list Line.t)
    (language : value) log :
  ToString language ∈ Object_prototype ->
  containsNewFunctions addedLines language log =
    (log, Returned (Results.mk false [] [] language)).
Proof.
  intros H. unfold containsNewFunctions. rewrite (patterns_get_inherited _ H).
  unfold bind. rewrite forEach_check_line_eq. cbn [nothing_to_try orb fst snd app].
  assert (E : function_lines [] addedLines = []).
  { unfold function_lines. induction addedLines as [|o rest IH]; [reflexivity |].
    cbn [List.filter]. unfold function_line at 1, function_text.
    destruct (Line.context o); cbn [existsb]; rewrite ?andb_false_r; exact IH. }
  rewrite E. reflexivity.
Qed.

(** The theorem at work on a file named [notes.constructor]. *)
Lemma containsNewFunctions_inherited_name_witness :
  detectLanguage (u "+++ b/notes.constructor") = VStr (u "constructor") /\
  containsNewFunctions (getAddedLines patch_computeTotal)
    (VStr (u "constructor")) [] =
    ([], Returned (Results.mk false [] [] (VStr (u "constructor")))).
Proof.
  split; [reflexivity |].
  apply (containsNewFunctions_inherited_name _ (VStr (u "constructor")) []).
  unfold Object_prototype. cbn [map ToString]. apply list_elem_of_here.
Defined.

(** X10: for each of the seven languages that have an import pattern,
    [containsImports] never throws and logs nothing: it returns, in the
    order of the lines, the [context] values whose text the pattern of the
    language matches (a value that is not a string being tested as its
    text, [undefined] as "undefined"). *)
Theorem containsImports_finds (language : value) :
  ToString language ∈ import_languages ->
  exists pattern,
    import_patterns !! ToString language = Some pattern /\
    forall (addedLines : list Line.t) log,
      containsImports addedLines language log =
        (log, Returned (import_lines pattern addedLines)).
Proof.
  intros H. destruct (import_patterns_language _ H) as (rx & Hrx).
  exists rx. split; [exact Hrx |]. intros addedLines log.
  unfold containsImports. rewrite (forEach_check_import_eq _ rx _ _ _ Hrx).
  reflexivity.
Qed.

(** The theorem at work on three lines of a Python file. *)
Lemma containsImports_finds_witness :
  (run (containsImports
          [ line_with_context 1 "import os";
            line_with_context 2 "x = 1";
            line_with_context 3 "from sys import argv" ]
          (VStr (u "py")))).2 =
    Returned [VStr (u "import os"); VStr (u "from sys import argv")].
Proof.
  destruct (containsImports_finds (VStr (u "py"))) as (rx & Hrx & H).
  - unfold import_languages. cbn [map ToString].
    do 2 apply list_elem_of_further. apply list_elem_of_here.
  - unfold run. rewrite H. vm_compute in Hrx. injection Hrx as <-. reflexivity.
Defined.

(** X11: for any other language, [containsImports] returns the empty array
    when there is no line, and throws a [TypeError] at the first line when
    there is one; it logs nothing. *)
Theorem containsImports_without_pattern (language : value) log :
  ToString language ∉ import_languages ->
  containsImports [] language log = (log, Returned []) /\
  forall lineObj rest,
    containsImports (lineObj :: rest) language log = (log, Thrown TypeError).
Proof.
  intros H. split; [reflexivity |]. intros o rest.
  apply forEach_check_import_throws, import_patterns_None, H.
Qed.

(** The theorem at work on the tag [md]. *)
Lemma containsImports_without_pattern_witness :
  containsImports (getAddedLines patch_readme) (VStr (u "md")) [] =
    ([], Thrown TypeError).
Proof.
  assert (H : ToString (VStr (u "md")) ∉ import_languages).
  { vm_compute. intros H.
    repeat (apply elem_of_cons in H as [H | H]; [discriminate |]).
    apply elem_of_nil in H. exact H. }
  destruct (containsImports_without_pattern (VStr (u "md")) [] H) as [_ Hc].
  apply (Hc (Line.mk (Fin 2) (VStr (u "More text")) VUndefined) []).
Defined.

(** X12: whenever [analyzeDiff] returns, its record reports no function and
    no import, whatever the patch adds: [hasNewFunctions] is the empty
    result, [hasImportChanges] the empty array, and [hasTestChanges] is
    [false], or [undefined] when [isTestFile] holds. *)
Theorem analyzeDiff_reports_nothing (patch : str) log log' (r : Parsed.t) :
  analyzeDiff patch log = (log', Returned r) ->
  r = bare_record patch /\
  Parsed.hasNewFunctions r = Results.mk false [] [] (detectLanguage patch) /\
  Parsed.hasImportChanges r = [] /\
  (Parsed.hasTestChanges r = VBool false \/ Parsed.hasTestChanges r = VUndefined).
Proof.
  rewrite analyzeDiff_eq. destruct (gets_through patch); [| discriminate].
  intros [= _ <-]. repeat split; cbn [Parsed.hasTestChanges bare_record].
  destruct (isTestFile (detectLanguage patch)); [right | left]; reflexivity.
Qed.

(** The theorem at work on a TypeScript patch that adds an import. *)
Lemma analyzeDiff_reports_nothing_witness :
  VStr (u "import b from 'b';") ∈ map Line.content (getAddedLines patch_ts_import) /\
  exists r,
    (run (analyzeDiff patch_ts_import)).2 = Returned r /\
    Parsed.hasImportChanges r = [].
Proof.
  split; [vm_compute; apply list_elem_of_here |].
  destruct (run (analyzeDiff patch_ts_import)) as [log' [r | e]] eqn:E;
    [| vm_compute in E; discriminate].
  exists r. split; [reflexivity |].
  apply (analyzeDiff_reports_nothing patch_ts_import [] log' r E).
Defined.

(** X13: the only exception that [analyzeDiff] throws is a [TypeError]. In
    particular the [ReferenceError] that [hasTestChanges] throws on the
    added lines of such a patch is never reached: a matcher called before
    it has thrown. *)
Theorem analyzeDiff_throws_only_TypeError (patch : str) log log' (e : exn) :
  analyzeDiff patch log = (log', Thrown e) ->
  e = TypeError /\
  hasTestChanges (getAddedLines patch) log' = (log', Thrown ReferenceError).
Proof.
  rewrite analyzeDiff_eq. unfold gets_through.
  destruct (getAddedLines patch) as [|o rest]; [discriminate |].
  destruct (bool_decide _); [discriminate |].
  intros [= _ <-]. split; reflexivity.
Qed.

(** The theorem at work on a line added to a file under [__tests__]. *)
Lemma analyzeDiff_throws_only_TypeError_witness :
  isTestFile (detectLanguage patch_tests_dir_added) = true /\
  (run (analyzeDiff patch_tests_dir_added)).2 = Thrown TypeError.
Proof.
  split; [vm_compute; reflexivity |].
  destruct (run (analyzeDiff patch_tests_dir_added)) as [log' [r | e]] eqn:E;
    [vm_compute in E; discriminate |].
  cbn [snd]. f_equal.
  exact (proj1 (analyzeDiff_throws_only_TypeError patch_tests_dir_added [] log' e E)).
Defined.

(** X14: however a call of [analyzeDiff] ends, it adds to the log the line
    [Analyzing diff] and, exactly when the language of the patch has no
    function patterns and is no inherited member name, the warning of
    [containsNewFunctions] that names the language; nothing else, and
    nothing already logged is changed. *)
Theorem analyzeDiff_log (patch : str) log :
  (analyzeDiff patch log).1 =
    log ++ ((info, u "Analyzing diff")
            :: (if bool_decide (ToString (detectLanguage patch)
                                  ∈ function_languages ++ Object_prototype)
                then []
                else [(warn, u "No patterns defined for language: "
                             ++ ToString (detectLanguage patch))])).
Proof.
  rewrite analyzeDiff_eq. cbn [fst]. unfold analysis_log. do 2 f_equal.
  case_bool_decide as Hin.
  - apply elem_of_app in Hin as [Hin | Hin].
    + destruct (patterns_get_function_language _ Hin) as (p & ps & ->). reflexivity.
    + rewrite (patterns_get_inherited _ Hin). reflexivity.
  - rewrite (patterns_get_None _ Hin). reflexivity.
Qed.

(** X15: the trackers take a diff of several files file by file: when a
    second patch follows a first one on a new line, and no line of the
    second before its first hunk header is an added or a removed line, the
    records of the whole are the records of the first patch followed by
    those of the second, each numbered as on its own. *)
Theorem trackers_of_patches_in_a_row (patch1 patch2 : str)
    (pre : list str) (hdr g : str) (rest : list str) :
  split patch2 LF = pre ++ hdr :: rest ->
  hunkMatch hdr = Some g ->
  Forall (fun l => is_added l = false /\ is_removed l = false) pre ->
  getAddedLines (patch1 ++ LF :: patch2) =
    getAddedLines patch1 ++ getAddedLines patch2 /\
  getDeletedLines (patch1 ++ LF :: patch2) =
    getDeletedLines patch1 ++ getDeletedLines patch2.
Proof.
  intros E Hh Hpre.
  rewrite !getAddedLines_track, !getDeletedLines_track, split_app, !track_app, E.
  split; f_equal; apply (track_restart _ pre hdr g rest _ _ Hh);
    eapply Forall_impl; try exact Hpre; cbn beta; tauto.
Qed.

(** The theorem at work on a diff of two files. *)
Lemma trackers_of_patches_in_a_row_witness :
  getAddedLines patch_two_files =
    getAddedLines patch_a_js ++ getAddedLines patch_b_js /\
  numbers (getAddedLines patch_two_files) = [Fin 10; Fin 1].
Proof.
  split; [| reflexivity].
  apply (trackers_of_patches_in_a_row patch_a_js patch_b_js
           [u "diff --git a/b.js b/b.js"; u "--- a/b.js"; u "+++ b/b.js"]
           (u "@@ -1,0 +1,1 @@") (u "1") [u "+let y = 2;"]);
    [reflexivity | reflexivity
    | repeat (constructor; [split; reflexivity |]); constructor].
Defined.

(** X16: no record of [getAddedLines] holds a text that begins with [++],
    and none of [getDeletedLines] a text that begins with [--]: a changed
    line whose own text begins with the doubled marker is taken for a file
    header and dropped. *)
Theorem trackers_drop_doubled_markers (patch : str) :
  Forall (fun o => exists text, Line.content o = VStr text /\
                                startsWith text (u "++") = false)
         (getAddedLines patch) /\
  Forall (fun o => exists text, Line.content o = VStr text /\
                                startsWith text (u "--") = false)
         (getDeletedLines patch).
Proof.
  assert (H : forall marked (marker : N) lines n,
            (forall l, marked l = true -> hunkMatch l = None) ->
            (forall l, marked l = true ->
                       startsWith (slice l 1) [marker; marker] = false) ->
            Forall (fun o => exists text, Line.content o = VStr text /\
                                          startsWith text [marker; marker] = false)
                   (track marked lines n)).
  { intros marked marker lines n Hno Hm. apply Forall_forall. intros o Ho.
    assert (Hc : Line.content o ∈ map Line.content (track marked lines n))
      by (apply list_elem_of_fmap; exists o; split; [reflexivity | exact Ho]).
    rewrite (track_contents_all marked Hno) in Hc.
    apply list_elem_of_fmap in Hc as (l & -> & Hl).
    apply list_elem_of_In, filter_In in Hl as [_ Hl].
    exists (slice l 1). split; [reflexivity |]. apply Hm, Hl. }
  rewrite getAddedLines_track, getDeletedLines_track. split.
  - apply (H is_added 43%N); [apply is_added_no_header |].
    intros l. apply (not_doubled 43%N).
  - apply (H is_removed 45%N); [apply is_removed_no_header |].
    intros l. apply (not_doubled 45%N).
Qed.

(** X17: [detectLanguage] tags a diff of several files by its first file:
    when a second patch follows a first one on a new line, the language of
    the whole is the language of the first patch, and that of the second
    only when the first has no [+++] line. *)
Theorem detectLanguage_of_patches_in_a_row (patch1 patch2 : str) :
  detectLanguage (patch1 ++ LF :: patch2) =
    match detectLanguage patch1 with
    | VNull => detectLanguage patch2
    | tag => tag
    end.
Proof.
  unfold detectLanguage. rewrite split_app. apply detectLanguage_loop_app.
Qed.

(** X18: under the patterns of [py] and of [go] the exclusion pattern has
    nothing to exclude: a text that the function pattern of the language
    matches begins, after blanks, with [async], [def] or [func], and no
    control-flow keyword begins so; a text is taken for a function header
    exactly when the pattern matches it. *)
Theorem exclusion_idle_for_py_and_go (s : str) :
  function_text py_patterns s = existsb (fun p => test p.2 s) py_patterns /\
  function_text go_patterns s = existsb (fun p => test p.2 s) go_patterns.
Proof.
  unfold function_text. split.
  - destruct (existsb _ py_patterns) eqn:E; [| apply andb_false_r].
    rewrite andb_true_r. apply negb_true_iff.
    destruct (test commonPatterns s) eqn:Ec; [exfalso | reflexivity].
    apply commonPatterns_head in Ec as (k & rest & Hk & Ek).
    apply py_function_head in E as (rest' & [E | E]); rewrite E in Ek;
      unfold control_keywords in Hk; cbn [map] in Hk;
      repeat (apply elem_of_cons in Hk as [-> | Hk]; [vm_compute in Ek; discriminate |]);
      apply elem_of_nil in Hk; contradiction.
  - destruct (existsb _ go_patterns) eqn:E; [| apply andb_false_r].
    rewrite andb_true_r. apply negb_true_iff.
    destruct (test commonPatterns s) eqn:Ec; [exfalso | reflexivity].
    apply commonPatterns_head in Ec as (k & rest & Hk & Ek).
    apply go_function_head in E as (rest' & E); rewrite E in Ek;
      unfold control_keywords in Hk; cbn [map] in Hk;
      repeat (apply elem_of_cons in Hk as [-> | Hk]; [vm_compute in Ek; discriminate |]);
      apply elem_of_nil in Hk; contradiction.
Qed.

(** * The earlier draft of the parser *)

(** X19: the trackers of the draft and those of the parser make the same
    records, in the same order and with the same numbers, but for the name
    of the property that holds the text of the line: [context] in the draft,
    [content] in the parser. (So the draft's [getDeletedLines] moves the
    counter on at a removed line as well.) *)
Theorem draft_trackers_keep_context (patch : str) :
  Draft.getAddedLines patch = map under_context (getAddedLines patch) /\
  Draft.getDeletedLines patch = map under_context (getDeletedLines patch).
Proof.
  split.
  - apply (draft_getAddedLines_loop _ _ []).
  - apply (draft_getDeletedLines_loop _ _ []).
Qed.

(** X20: on the records of the draft's tracker the function matcher of the
    parser never throws: under a language that has a pattern table it logs
    nothing and reports, with their numbers, the added lines that the
    exclusion pattern does not match and a pattern of the language does. *)
Theorem containsNewFunctions_on_draft_records (patch : str) (language : value)
    (langPatterns : list (string * regex)) log :
  patterns_get language = Some langPatterns ->
  containsNewFunctions (Draft.getAddedLines patch) language log =
    (log,
     Returned
       (Results.mk
          (bool_decide
             (0 < length (function_lines langPatterns (Draft.getAddedLines patch))))
          (reported_texts (function_lines langPatterns (Draft.getAddedLines patch)))
          (numbers (function_lines langPatterns (Draft.getAddedLines patch)))
          language)).
Proof.
  intros Hp. unfold containsNewFunctions. rewrite Hp. unfold bind.
  rewrite forEach_check_line_eq.
  rewrite (proj2 (forallb_true_Forall _ _) (draft_contexts_strings patch)).
  rewrite orb_true_r. cbn [fst snd app]. unfold ret, reported_texts.
  rewrite length_map. reflexivity.
Qed.

(** The theorem at work on the patch that adds [computeTotal] at line 10. *)
Lemma containsNewFunctions_on_draft_records_witness :
  run (containsNewFunctions (Draft.getAddedLines patch_computeTotal) (VStr (u "js"))) =
    ([], Returned (Results.mk true [u "function computeTotal(x, y) {"] [Fin 10]
                     (VStr (u "js")))).
Proof.
  unfold run.
  rewrite (containsNewFunctions_on_draft_records patch_computeTotal
             (VStr (u "js")) js_patterns []);
    [reflexivity | reflexivity].
Defined.

(** X21: the [detectLanguage] of the draft answers an object whose [name]
    is read at the last line that begins with [+++] (untrimmed): the path
    of that line after its first [.], or the whole path when it has none;
    without such a line the object has no [name]. *)
Theorem draft_detectLanguage_last_header (patch : str) :
  (Forall (fun l => is_draft_header l = false) (split patch LF) ->
   Draft.Language.name (Draft.detectLanguage patch) = VUndefined) /\
  (forall pre line post,
     split patch LF = pre ++ line :: post ->
     is_draft_header line = true ->
     Forall (fun l => is_draft_header l = false) post ->
     Draft.Language.name (Draft.detectLanguage patch) = VStr (draft_name line)).
Proof.
  unfold Draft.detectLanguage. split.
  - intros H. rewrite (draft_detectLanguage_loop_none _ _ H). reflexivity.
  - intros pre line post -> Hline Hpost.
    rewrite draft_detectLanguage_loop_app. cbn [Draft.detectLanguage_loop].
    unfold is_draft_header in Hline. rewrite Hline.
    rewrite (draft_detectLanguage_loop_none _ _ Hpost). reflexivity.
Qed.

(** The theorem at work on a change to [calculator.test.js], which the
    draft names [test.js] and the parser tags [js]. *)
Lemma draft_detectLanguage_last_header_witness :
  Draft.Language.name (Draft.detectLanguage patch_calculator_test)
    = VStr (u "test.js") /\
  detectLanguage patch_calculator_test = VStr (u "js").
Proof.
  split; [| reflexivity].
  apply (proj2 (draft_detectLanguage_last_header patch_calculator_test)
           [u "--- a/calculator.test.js"] (u "+++ b/calculator.test.js")
           [u "@@ -1,1 +1,2 @@"; u " const calc = require('./calculator');";
            u "+const assert = require('assert');"]);
    [reflexivity | reflexivity
    | repeat (constructor; [reflexivity |]); constructor].
Defined.

(** X22: whenever the draft's [analyzeChange] returns, [isTestFile] is
    false, whatever the file is called (the patterns are tested on an
    object); [hasImportChanges] is [undefined] when the patch adds no line
    and a boolean otherwise; and what [console.log] has printed is the text
    of the first added line alone. *)
Theorem draft_analyzeChange_returns (patch : str) (printed : list value)
    (r : Draft.Parsed.t) :
  Draft.analyzeChange patch = (printed, Returned r) ->
  Draft.Parsed.isTestFile r = false /\
  Draft.Parsed.addedLines r = map under_context (getAddedLines patch) /\
  (getAddedLines patch = [] ->
   Draft.Parsed.hasImportChanges r = VUndefined /\ printed = []) /\
  (forall o rest,
     getAddedLines patch = o :: rest ->
     (exists b, Draft.Parsed.hasImportChanges r = VBool b) /\
     printed = [Line.content o]).
Proof.
  unfold Draft.analyzeChange. rewrite draft_getAddedLines_eq.
  destruct (getAddedLines patch) as [|o rest]; cbn [map Draft.containsImports].
  - intros [= <- <-]. cbn [Draft.Parsed.isTestFile Draft.Parsed.addedLines
                            Draft.Parsed.hasImportChanges].
    repeat split; try discriminate.
  - destruct (Draft.patterns_get _); intros [= <- <-];
      cbn [Draft.Parsed.isTestFile Draft.Parsed.addedLines
           Draft.Parsed.hasImportChanges];
      (split; [reflexivity |]); (split; [reflexivity |]);
      (split; [discriminate |]); intros o' rest' [= <- <-];
      (split; [eexists; reflexivity | reflexivity]).
Qed.

(** The theorem at work on a change to [calculator.test.js]. *)
Lemma draft_analyzeChange_returns_witness :
  isTestFile (VStr (u "calculator.test.js")) = true /\
  exists printed r,
    Draft.analyzeChange patch_calculator_test = (printed, Returned r) /\
    Draft.Parsed.isTestFile r = false.
Proof.
  split; [reflexivity |].
  destruct (Draft.analyzeChange patch_calculator_test) as [printed [r | e]] eqn:E;
    [| vm_compute in E; discriminate].
  exists printed, r. split; [reflexivity |].
  exact (proj1 (draft_analyzeChange_returns patch_calculator_test printed r E)).
Defined.

(** X23: the draft's [analyzeChange] throws exactly when the patch adds a
    line and the name that [detectLanguage] reads is a member that the
    import table inherits from [Object.prototype]: the looked-up member is
    truthy and has no [test] method, a [TypeError]; the text of the first
    added line has been printed by then. *)
Theorem draft_analyzeChange_throws_iff (patch : str) (printed : list value)
    (e : exn) :
  Draft.analyzeChange patch = (printed, Thrown e) <->
  e = TypeError /\
  ToString (Draft.Language.name (Draft.detectLanguage patch)) ∈ Object_prototype /\
  exists o rest, getAddedLines patch = o :: rest /\ printed = [Line.content o].
Proof.
  unfold Draft.analyzeChange. rewrite draft_getAddedLines_eq.
  destruct (getAddedLines patch) as [|o rest]; cbn [map Draft.containsImports].
  - split; [discriminate | intros (_ & _ & o & rest & ? & _); discriminate].
  - unfold Draft.patterns_get.
    destruct (import_patterns !! _) as [rx|] eqn:Hi.
    + split; [discriminate |]. intros (_ & Hin & _). exfalso.
      apply import_patterns_Some in Hi as [Hkey _].
      revert Hin. generalize (ToString (Draft.Language.name (Draft.detectLanguage patch))) Hkey.
      intros key Hk Hin.
      repeat (apply elem_of_cons in Hk as [-> | Hk];
              [vm_compute in Hin;
               repeat (apply elem_of_cons in Hin as [Hin | Hin]; [discriminate |]);
               apply elem_of_nil in Hin; contradiction |]).
      apply elem_of_nil in Hk. contradiction.
    + case_bool_decide as Hin.
      * split.
        -- intros [= <- <-]. split; [reflexivity |]. split; [exact Hin |].
           exists o, rest. split; reflexivity.
        -- intros (-> & _ & o' & rest' & [= <- <-] & ->). reflexivity.
      * split; [discriminate |]. intros (_ & Hin' & _). contradiction.
Qed.

(** The theorem at work on a line added to [notes.constructor]. *)
Lemma draft_analyzeChange_throws_iff_witness :
  Draft.analyzeChange patch_notes_constructor =
    ([VStr (u "second")], Thrown TypeError).
Proof.
  apply (proj2 (draft_analyzeChange_throws_iff patch_notes_constructor
                  [VStr (u "second")] TypeError)).
  split; [reflexivity |]. split.
  - change (ToString (Draft.Language.name (Draft.detectLanguage patch_notes_constructor)))
      with (u "constructor").
    unfold Object_prototype. cbn [map]. apply list_elem_of_here.
  - exists (Line.mk (Fin 2) (VStr (u "second")) VUndefined), []. split; reflexivity.
Defined.
